(** * Courier Management System: route handlers and their queries

    A shallow embedding of [server/routes/couriers.js] and
    [server/routes/reports.js].

    - JavaScript values are an inductive type [JsVal]; objects are
      association lists in property order.
    - A route handler is a program in the free monad [Handler]: it returns
      a response, throws, or issues one statement through the connection
      pool and continues with the answer.  [try_catch] is the handler's
      [try { ... } catch (error) { ... }].
    - The pool is an interface ([Pool]): any database that answers a
      statement with a row set or a rejection.  [run] executes a handler
      against a pool and records the statements issued, in order.
    - [Tables] with [mysql_exec] is a pool that evaluates the literal SQL
      of the source over lists of rows.  What belongs to the database and
      not to the application (the stored routines, the coercion of a bound
      parameter to a key, the collation of names) is an [Engine], a
      parameter of that model. *)

From stdpp Require Import base strings list sorting pretty.

Local Open Scope Z_scope.
#[local] Set Warnings "-register-all".

(** ** JavaScript values *)

(** Numbers are the integers that JavaScript prints in plain decimals (of
    magnitude below 10^21): identifiers, counts and timestamps.  (A fraction
    would behave as any non-zero integer does in everything the handlers do
    with a number: test it for truth and pass it on.) *)
Inductive JsVal : Type :=
| JUndefined
| JNull
| JBool (b : bool)
| JNum (n : Z)
| JStr (s : string)
| JArr (xs : list JsVal)
| JObj (props : list (string * JsVal)).

Definition Props := list (string * JsVal).

(** [ToBoolean]: what [!v] negates. *)
Definition truthy (v : JsVal) : bool :=
  match v with
  | JUndefined | JNull => false
  | JBool b => b
  | JNum n => negb (n =? 0)
  | JStr s => negb (String.eqb s "")
  | JArr _ | JObj _ => true
  end.

(** [o.k] on an object given by its properties: [undefined] when absent. *)
Fixpoint prop (o : Props) (k : string) : JsVal :=
  match o with
  | [] => JUndefined
  | (k', v) :: o' => if String.eqb k' k then v else prop o' k
  end.

(** [k in o] for own properties. *)
Definition has_prop (o : Props) (k : string) : bool :=
  existsb (λ kv, String.eqb (fst kv) k) o.

(** [xs[0]] on an array. *)
Definition index0 (xs : list JsVal) : JsVal :=
  match xs with
  | [] => JUndefined
  | x :: _ => x
  end.

(** A thrown [Error]; only its [message] is ever read. *)
Record JsError : Type := mkError { message : string }.

(** [String(v)], as a template literal applies it. *)
Fixpoint to_string (v : JsVal) : string :=
  match v with
  | JUndefined => "undefined"
  | JNull => "null"
  | JBool true => "true"
  | JBool false => "false"
  | JNum n => pretty n
  | JStr s => s
  | JArr xs =>
      String.concat ","
        (map (λ x, match x with
                   | JUndefined | JNull => ""
                   | _ => to_string x
                   end) xs)
  | JObj _ => "[object Object]"
  end.

(** [v.k] for a named property [k] of an arbitrary value: reading a
    property of [undefined] or [null] throws a [TypeError]. *)
Definition member (v : JsVal) (k : string) : JsError + JsVal :=
  match v with
  | JUndefined | JNull =>
      inl (mkError ("Cannot read properties of " +:+ to_string v +:+
                    " (reading '" +:+ k +:+ "')"))
  | JObj o => inr (prop o k)
  | JArr xs =>
      inr (if String.eqb k "length" then JNum (Z.of_nat (length xs))
           else JUndefined)
  | JStr s =>
      inr (if String.eqb k "length" then JNum (Z.of_nat (String.length s))
           else JUndefined)
  | JBool _ | JNum _ => inr JUndefined
  end.

(** [v === null]. *)
Definition is_null (v : JsVal) : bool :=
  match v with
  | JNull => true
  | _ => false
  end.

(** ** Requests and responses *)

(** [v == null]: [undefined] or [null]. *)
Definition nullish (v : JsVal) : bool :=
  match v with
  | JUndefined | JNull => true
  | _ => false
  end.

(** [v.k] on a value that is neither [undefined] nor [null]. *)
Definition read (v : JsVal) (k : string) : JsVal :=
  match member v k with
  | inr x => x
  | inl _ => JUndefined
  end.

(** [const { first, ... } = source] with [source] evaluating to [v]:
    destructuring [undefined] or [null] throws a [TypeError] that names the
    first property; any other value is then read property by property. *)
Definition cannot_destructure (source first : string) (v : JsVal) : JsError :=
  mkError ("Cannot destructure property '" +:+ first +:+ "' of '" +:+
           source +:+ "' as it is " +:+ to_string v +:+ ".").

Definition destructure (source first : string) (v : JsVal)
    : JsError + (string → JsVal) :=
  if nullish v then inl (cannot_destructure source first v)
  else inr (read v).

(** [req.params] is the object of the route parameters.  [req.body] is
    whatever the body parser left: the parsed JSON value, or [undefined]
    when no body was parsed. *)
Record Request : Type := mkRequest {
  req_params : Props;
  req_body : JsVal
}.

Record Response : Type := mkResponse {
  res_code : Z;         (* HTTP status code *)
  res_body : JsVal      (* the value handed to [res.json] *)
}.

(** [res.status(c).json(v)] and [res.json(v)]. *)
Definition res_status_json (c : Z) (v : JsVal) : Response := mkResponse c v.
Definition res_json (v : JsVal) : Response := mkResponse 200 v.

(** ** The statements the routes issue *)

Inductive Stmt : Type :=
| CallAddCourierOrder
| CallUpdateCourierStatus
| SelectGetCourierStatus
| SelectDeliveryHistory
| SelectCourierAudit
| SelectCourierById
| DeleteCourierById
| SelectNested
| SelectAggregate
| SelectCustomerActivity.

Global Instance Stmt_eq_dec : EqDecision Stmt.
Proof. solve_decision. Defined.

(** The SQL text behind each statement (line breaks of the source
    collapsed to single spaces). *)
Definition sql_text (q : Stmt) : string :=
  match q with
  | CallAddCourierOrder => "CALL AddCourierOrder(?, ?, ?, ?, ?)"
  | CallUpdateCourierStatus => "CALL UpdateCourierStatus(?, ?, ?)"
  | SelectGetCourierStatus => "SELECT GetCourierStatus(?) AS status"
  | SelectDeliveryHistory =>
      "SELECT history_id, courier_id, old_status, new_status, changed_at, changed_by_admin_email FROM Delivery_History WHERE courier_id = ? ORDER BY changed_at DESC"
  | SelectCourierAudit =>
      "SELECT audit_id, courier_id, action_type, old_status, new_status, changed_at, admin_email FROM Courier_Audit WHERE courier_id = ? ORDER BY changed_at DESC"
  | SelectCourierById =>
      "SELECT courier_id, bill_number FROM Couriers WHERE courier_id = ?"
  | DeleteCourierById => "DELETE FROM Couriers WHERE courier_id = ?"
  | SelectNested =>
      "SELECT user_id, name, email, phone FROM Users WHERE user_id IN ( SELECT customer_id FROM Couriers WHERE status = 'Delivered' ) ORDER BY name"
  | SelectAggregate =>
      "SELECT status, COUNT(*) as count, COUNT(DISTINCT customer_id) as unique_customers, MIN(created_at) as earliest_order, MAX(created_at) as latest_order FROM Couriers GROUP BY status ORDER BY count DESC"
  | SelectCustomerActivity =>
      "SELECT u.user_id, u.name AS customer_name, u.email, COUNT(c.courier_id) AS total_orders, GROUP_CONCAT(DISTINCT c.status) AS order_statuses FROM Users u LEFT JOIN Couriers c ON u.user_id = c.customer_id GROUP BY u.user_id, u.name, u.email HAVING total_orders > 0 ORDER BY total_orders DESC"
  end.

(** One call of [pool.query(sql, args)]. *)
Definition Call : Type := Stmt * list JsVal.

(** The answer to a call: a rejection, or the first component of the
    driver's result (for a SELECT the rows, for a CALL the result sets). *)
Definition Answer : Type := JsError + list JsVal.

(** ** Handlers *)

Inductive Handler (A : Type) : Type :=
| Ret (a : A)
| Throw (e : JsError)
| Query (q : Stmt) (args : list JsVal) (k : Answer → Handler A).

Arguments Ret {A} a.
Arguments Throw {A} e.
Arguments Query {A} q args k.

Fixpoint handler_bind {A B} (f : A → Handler B) (h : Handler A) : Handler B :=
  match h with
  | Ret a => f a
  | Throw e => Throw e
  | Query q args k => Query q args (λ r, handler_bind f (k r))
  end.

Global Instance Handler_ret : MRet Handler := @Ret.
Global Instance Handler_bind : MBind Handler := @handler_bind.

(** [await pool.query(q, args)]: a rejected promise is thrown at the
    [await]. *)
Definition pool_query (q : Stmt) (args : list JsVal) : Handler (list JsVal) :=
  Query q args (λ r, match r with
                     | inl e => Throw e
                     | inr rows => Ret rows
                     end).

(** Lift a JavaScript expression that may throw. *)
Definition eval {A} (r : JsError + A) : Handler A :=
  match r with
  | inl e => Throw e
  | inr a => Ret a
  end.

(** [try { h } catch (error) { c error }]. *)
Fixpoint try_catch {A} (h : Handler A) (c : JsError → Handler A) : Handler A :=
  match h with
  | Ret a => Ret a
  | Throw e => c e
  | Query q args k => Query q args (λ r, try_catch (k r) c)
  end.

(** ** The connection pool and running a handler against it *)

Class Pool (DB : Type) : Type :=
  pool_exec : Stmt → list JsVal → DB → Answer * DB.

(** What a request leaves behind: the response (or an uncaught error), the
    database, and the statements issued in order. *)
Record Outcome (DB A : Type) : Type := mkOutcome {
  result : JsError + A;
  final_db : DB;
  calls : list Call
}.

Arguments mkOutcome {DB A} result final_db calls.
Arguments result {DB A} o.
Arguments final_db {DB A} o.
Arguments calls {DB A} o.

Fixpoint run {DB} `{!Pool DB} {A} (h : Handler A) (db : DB) : Outcome DB A :=
  match h with
  | Ret a => mkOutcome (inr a) db []
  | Throw e => mkOutcome (inl e) db []
  | Query q args k =>
      let '(r, db') := pool_exec q args db in
      let o := run (k r) db' in
      mkOutcome (result o) (final_db o) ((q, args) :: calls o)
  end.

(** ** [server/routes/couriers.js] *)

Module CourierRoutes.

(** [router.post('/add', ...)] *)
Definition post_add (req : Request) : Handler Response :=
  try_catch
    (body ← eval (destructure "req.body" "customer_id" (req_body req));
     let customer_id := body "customer_id" in
     let admin_id := body "admin_id" in
     let bill_number := body "bill_number" in
     let pickup_address := body "pickup_address" in
     let delivery_address := body "delivery_address" in
     if negb (truthy customer_id) || negb (truthy admin_id)
        || negb (truthy bill_number) || negb (truthy pickup_address)
        || negb (truthy delivery_address)
     then
       mret (res_status_json 400 (JObj [
         ("success", JBool false);
         ("message", JStr "All fields are required")]))
     else
       result ← pool_query CallAddCourierOrder
         [customer_id; admin_id; bill_number; pickup_address;
          delivery_address];
       mret (res_status_json 201 (JObj [
         ("success", JBool true);
         ("message",
          JStr "Courier order added successfully using stored procedure");
         ("data", index0 result)])))
    (λ error,
       mret (res_status_json 500 (JObj [
         ("success", JBool false);
         ("message", JStr "Failed to add courier order");
         ("error", JStr (message error))]))).

(** [router.put('/update-status/:id', ...)] *)
Definition put_update_status (req : Request) : Handler Response :=
  try_catch
    (let id := prop (req_params req) "id" in
     body ← eval (destructure "req.body" "new_status" (req_body req));
     let new_status := body "new_status" in
     let changed_by_admin_email := body "changed_by_admin_email" in
     if negb (truthy new_status) || negb (truthy changed_by_admin_email)
     then
       mret (res_status_json 400 (JObj [
         ("success", JBool false);
         ("message", JStr "Status and admin email are required")]))
     else
       _ ← pool_query CallUpdateCourierStatus
         [id; new_status; changed_by_admin_email];
       mret (res_json (JObj [
         ("success", JBool true);
         ("message",
          JStr "Courier status updated successfully using stored procedure (Trigger fired automatically)");
         ("courier_id", id);
         ("new_status", new_status)])))
    (λ error,
       mret (res_status_json 500 (JObj [
         ("success", JBool false);
         ("message", JStr "Failed to update courier status");
         ("error", JStr (message error))]))).

(** [router.get('/status/:id', ...)] *)
Definition get_status (req : Request) : Handler Response :=
  try_catch
    (let id := prop (req_params req) "id" in
     rows ← pool_query SelectGetCourierStatus [id];
     match rows with
     | [] =>
         (* rows.length === 0 *)
         mret (res_status_json 404 (JObj [
           ("success", JBool false);
           ("message", JStr "Courier not found")]))
     | row :: _ =>
         status ← eval (member row "status");
         if is_null status then
           mret (res_status_json 404 (JObj [
             ("success", JBool false);
             ("message", JStr "Courier not found")]))
         else
           mret (res_json (JObj [
             ("success", JBool true);
             ("message", JStr "Status retrieved using database function");
             ("courier_id", id);
             ("status", status)]))
     end)
    (λ error,
       mret (res_status_json 500 (JObj [
         ("success", JBool false);
         ("message", JStr "Failed to get courier status");
         ("error", JStr (message error))]))).

(** [router.get('/:id/logs', ...)] *)
Definition get_logs (req : Request) : Handler Response :=
  try_catch
    (let id := prop (req_params req) "id" in
     deliveryHistory ← pool_query SelectDeliveryHistory [id];
     auditLogs ← pool_query SelectCourierAudit [id];
     mret (res_json (JObj [
       ("success", JBool true);
       ("message",
        JStr "Logs retrieved successfully (Proof of Trigger execution)");
       ("courier_id", id);
       ("delivery_history", JArr deliveryHistory);
       ("audit_logs", JArr auditLogs);
       ("trigger_info",
        JStr "These records were automatically created by the after_courier_status_update trigger")])))
    (λ error,
       mret (res_status_json 500 (JObj [
         ("success", JBool false);
         ("message", JStr "Failed to fetch logs");
         ("error", JStr (message error))]))).

(** [router.delete('/:id', ...)] *)
Definition delete_courier (req : Request) : Handler Response :=
  try_catch
    (let id := prop (req_params req) "id" in
     courier ← pool_query SelectCourierById [id];
     match courier with
     | [] =>
         (* courier.length === 0 *)
         mret (res_status_json 404 (JObj [
           ("success", JBool false);
           ("message", JStr "Courier not found")]))
     | courier0 :: _ =>
         _ ← pool_query DeleteCourierById [id];
         bill_number ← eval (member courier0 "bill_number");
         mret (res_json (JObj [
           ("success", JBool true);
           ("message",
            JStr ("Courier #" +:+ to_string id +:+ " (" +:+
                  to_string bill_number +:+ ") deleted successfully"));
           ("deleted_courier", courier0)]))
     end)
    (λ error,
       mret (res_status_json 500 (JObj [
         ("success", JBool false);
         ("message", JStr "Failed to delete courier");
         ("error", JStr (message error))]))).

End CourierRoutes.

(** ** [server/routes/reports.js] *)

Module ReportRoutes.

(** [router.get('/nested', ...)] *)
Definition get_nested (req : Request) : Handler Response :=
  try_catch
    (rows ← pool_query SelectNested [];
     mret (res_json (JObj [
       ("success", JBool true);
       ("message", JStr "NESTED Query executed successfully");
       ("query_type", JStr "NESTED (Users with Delivered couriers)");
       ("description",
        JStr "Finds all customers who have at least one delivered courier");
       ("count", JNum (Z.of_nat (length rows)));
       ("data", JArr rows)])))
    (λ error,
       mret (res_status_json 500 (JObj [
         ("success", JBool false);
         ("message", JStr "Failed to execute NESTED query");
         ("error", JStr (message error))]))).

(** [router.get('/aggregate', ...)] *)
Definition get_aggregate (req : Request) : Handler Response :=
  try_catch
    (rows ← pool_query SelectAggregate [];
     mret (res_json (JObj [
       ("success", JBool true);
       ("message", JStr "AGGREGATE Query executed successfully");
       ("query_type", JStr "AGGREGATE (GROUP BY status with COUNT)");
       ("description", JStr "Groups couriers by status and counts orders");
       ("count", JNum (Z.of_nat (length rows)));
       ("data", JArr rows)])))
    (λ error,
       mret (res_status_json 500 (JObj [
         ("success", JBool false);
         ("message", JStr "Failed to execute AGGREGATE query");
         ("error", JStr (message error))]))).

(** [router.get('/customer-activity', ...)] *)
Definition get_customer_activity (req : Request) : Handler Response :=
  try_catch
    (rows ← pool_query SelectCustomerActivity [];
     mret (res_json (JObj [
       ("success", JBool true);
       ("message", JStr "Customer Activity Report");
       ("data", JArr rows)])))
    (λ error,
       mret (res_status_json 500 (JObj [
         ("success", JBool false);
         ("error", JStr (message error))]))).

End ReportRoutes.

(** ** The tables behind the statements *)

(** Rows carry the columns the statements of the source read.  Key columns
    are integers; a column whose nullability the statements depend on is an
    [option], with [None] for SQL NULL. *)

Record User : Type := mkUser {
  user_id : Z;
  name : string;
  email : string;
  phone : option string
}.

Record Courier : Type := mkCourier {
  courier_id : Z;
  customer_id : option Z;
  managed_by_admin_id : option Z;
  bill_number : string;
  pickup_address : string;
  delivery_address : string;
  status : option string;
  created_at : Z
}.

Record HistoryRow : Type := mkHistoryRow {
  history_id : Z;
  history_courier_id : Z;
  history_old_status : option string;
  history_new_status : option string;
  history_changed_at : Z;
  changed_by_admin_email : option string
}.

Record AuditRow : Type := mkAuditRow {
  audit_id : Z;
  audit_courier_id : Z;
  action_type : string;
  audit_old_status : option string;
  audit_new_status : option string;
  audit_changed_at : Z;
  admin_email : option string
}.

Record Tables : Type := mkTables {
  Users : list User;
  Couriers : list Courier;
  Delivery_History : list HistoryRow;
  Courier_Audit : list AuditRow
}.

(** Rows as the driver hands them to JavaScript. *)
Definition js_opt_str (o : option string) : JsVal :=
  match o with
  | Some s => JStr s
  | None => JNull
  end.

Definition js_opt_num (o : option Z) : JsVal :=
  match o with
  | Some n => JNum n
  | None => JNull
  end.

Definition js_user (u : User) : JsVal :=
  JObj [("user_id", JNum (user_id u)); ("name", JStr (name u));
        ("email", JStr (email u)); ("phone", js_opt_str (phone u))].

Definition js_courier_key (c : Courier) : JsVal :=
  JObj [("courier_id", JNum (courier_id c));
        ("bill_number", JStr (bill_number c))].

Definition js_history (h : HistoryRow) : JsVal :=
  JObj [("history_id", JNum (history_id h));
        ("courier_id", JNum (history_courier_id h));
        ("old_status", js_opt_str (history_old_status h));
        ("new_status", js_opt_str (history_new_status h));
        ("changed_at", JNum (history_changed_at h));
        ("changed_by_admin_email", js_opt_str (changed_by_admin_email h))].

Definition js_audit (a : AuditRow) : JsVal :=
  JObj [("audit_id", JNum (audit_id a));
        ("courier_id", JNum (audit_courier_id a));
        ("action_type", JStr (action_type a));
        ("old_status", js_opt_str (audit_old_status a));
        ("new_status", js_opt_str (audit_new_status a));
        ("changed_at", JNum (audit_changed_at a));
        ("admin_email", js_opt_str (admin_email a))].

(** *** The database engine *)

(** What the statements need of the engine and of the schema and is not in
    the application source. *)
Record Engine : Type := mkEngine {
  (* How a bound parameter compares with an integer key column
     ([WHERE courier_id = ?]); the coercion of text to a number is the
     engine's. *)
  sql_eq_key : JsVal → Z → bool;
  (* The stored routines [AddCourierOrder], [UpdateCourierStatus] and
     [GetCourierStatus], with the trigger the second one fires. *)
  routine : Stmt → list JsVal → Tables → Answer * Tables;
  (* The collation of [Users.name]: [collate a b] when [a] sorts no later
     than [b]. *)
  collate : string → string → bool;
  collate_total : ∀ a b, collate a b = true ∨ collate b a = true;
  collate_trans : ∀ a b c,
    collate a b = true → collate b c = true → collate a c = true
}.

(** *** Orderings of the ORDER BY clauses *)

(** [ORDER BY name], in the collation of the column. *)
Definition by_name (E : Engine) : relation User :=
  λ u1 u2, collate E (name u1) (name u2) = true.

(** [ORDER BY changed_at DESC]. *)
Definition history_newest_first : relation HistoryRow :=
  λ h1 h2, history_changed_at h2 ≤ history_changed_at h1.
Definition audit_newest_first : relation AuditRow :=
  λ a1 a2, audit_changed_at a2 ≤ audit_changed_at a1.

Global Instance by_name_dec (E : Engine) : RelDecision (by_name E).
Proof. intros u1 u2. unfold by_name. apply _. Defined.
Global Instance history_newest_first_dec : RelDecision history_newest_first.
Proof. intros h1 h2. unfold history_newest_first. apply _. Defined.
Global Instance audit_newest_first_dec : RelDecision audit_newest_first.
Proof. intros a1 a2. unfold audit_newest_first. apply _. Defined.

(** *** The membership report (SelectNested) *)

(** [SELECT customer_id FROM Couriers WHERE status = 'Delivered'].  A status
    is one of the names of an enumerated set, so two statuses are equal to
    the engine exactly when they are the same name. *)
Definition delivered_customer_ids (t : Tables) : list (option Z) :=
  customer_id <$> filter (λ c, status c = Some "Delivered") (Couriers t).

(** [user_id IN (...)] is true exactly when some listed value equals
    [user_id]; a NULL in the list equals nothing. *)
Definition q_nested (E : Engine) (t : Tables) : list User :=
  merge_sort (by_name E)
    (filter (λ u, Some (user_id u) ∈ delivered_customer_ids t) (Users t)).

(** *** The aggregate report (SelectAggregate) *)

Record StatusRow : Type := mkStatusRow {
  agg_status : option string;
  agg_count : nat;
  unique_customers : nat;
  earliest_order : option Z;
  latest_order : option Z
}.

(** MIN and MAX over a group: NULL for no value. *)
Definition min_of (l : list Z) : option Z :=
  match l with
  | [] => None
  | x :: l' => Some (foldr Z.min x l')
  end.

Definition max_of (l : list Z) : option Z :=
  match l with
  | [] => None
  | x :: l' => Some (foldr Z.max x l')
  end.

(** The rows of [Couriers] in the group of status [s]; NULL statuses form
    a group of their own. *)
Definition status_group (s : option string) (cs : list Courier) : list Courier :=
  filter (λ c, status c = s) cs.

Definition status_row (cs : list Courier) (s : option string) : StatusRow :=
  let g := status_group s cs in
  {| agg_status := s;
     agg_count := length g;
     unique_customers := length (remove_dups (omap customer_id g));
     earliest_order := min_of (created_at <$> g);
     latest_order := max_of (created_at <$> g) |}.

(** [ORDER BY count DESC]. *)
Definition by_count_desc : relation StatusRow :=
  λ r1 r2, (agg_count r2 ≤ agg_count r1)%nat.

Global Instance by_count_desc_dec : RelDecision by_count_desc.
Proof. intros r1 r2. unfold by_count_desc. apply _. Defined.

Definition q_aggregate (t : Tables) : list StatusRow :=
  merge_sort by_count_desc
    (status_row (Couriers t) <$> remove_dups (status <$> Couriers t)).

Definition js_status_row (r : StatusRow) : JsVal :=
  JObj [("status", js_opt_str (agg_status r));
        ("count", JNum (Z.of_nat (agg_count r)));
        ("unique_customers", JNum (Z.of_nat (unique_customers r)));
        ("earliest_order", js_opt_num (earliest_order r));
        ("latest_order", js_opt_num (latest_order r))].

(** *** The customer-activity report (SelectCustomerActivity) *)

(** [Users u LEFT JOIN Couriers c ON u.user_id = c.customer_id]: every
    user paired with each matching order, or once with NULLs when there is
    none. *)
Definition join_rows (cs : list Courier) (u : User)
    : list (User * option Courier) :=
  match filter (λ c, customer_id c = Some (user_id u)) cs with
  | [] => [(u, None)]
  | m => (λ c, (u, Some c)) <$> m
  end.

Definition left_join (us : list User) (cs : list Courier)
    : list (User * option Courier) :=
  u ← us; join_rows cs u.

(** [GROUP BY u.user_id, u.name, u.email] *)
Definition activity_key (j : User * option Courier) : Z * string * string :=
  (user_id j.1, name j.1, email j.1).

Definition activity_group (k : Z * string * string)
    (js : list (User * option Courier)) : list (User * option Courier) :=
  filter (λ j, activity_key j = k) js.

(** [GROUP_CONCAT(DISTINCT x)]: the distinct non-NULL values joined by
    commas, NULL when there is none. *)
Definition group_concat_distinct (l : list string) : option string :=
  match l with
  | [] => None
  | _ => Some (String.concat "," (remove_dups l))
  end.

Record ActivityRow : Type := mkActivityRow {
  activity_user_id : Z;
  customer_name : string;
  activity_email : string;
  total_orders : nat;
  order_statuses : option string
}.

(** One output row per group; [COUNT(c.courier_id)] counts the rows of the
    group whose order columns are not NULL. *)
Definition activity_row (js : list (User * option Courier))
    (k : Z * string * string) : ActivityRow :=
  let g := activity_group k js in
  {| activity_user_id := k.1.1;
     customer_name := k.1.2;
     activity_email := k.2;
     total_orders := length (omap (λ j, courier_id <$> j.2) g);
     order_statuses := group_concat_distinct (omap (λ j, j.2 ≫= status) g) |}.

Definition activity_grouped (t : Tables) : list ActivityRow :=
  let js := left_join (Users t) (Couriers t) in
  activity_row js <$> remove_dups (activity_key <$> js).

(** [HAVING total_orders > 0] *)
Definition activity_having (rows : list ActivityRow) : list ActivityRow :=
  filter (λ r, (0 < total_orders r)%nat) rows.

(** [ORDER BY total_orders DESC] *)
Definition by_total_desc : relation ActivityRow :=
  λ r1 r2, (total_orders r2 ≤ total_orders r1)%nat.

Global Instance by_total_desc_dec : RelDecision by_total_desc.
Proof. intros r1 r2. unfold by_total_desc. apply _. Defined.

Definition q_customer_activity (t : Tables) : list ActivityRow :=
  merge_sort by_total_desc (activity_having (activity_grouped t)).

Definition js_activity_row (r : ActivityRow) : JsVal :=
  JObj [("user_id", JNum (activity_user_id r));
        ("customer_name", JStr (customer_name r));
        ("email", JStr (activity_email r));
        ("total_orders", JNum (Z.of_nat (total_orders r)));
        ("order_statuses", js_opt_str (order_statuses r))].

(** The orders of a user, as the report should count them. *)
Definition orders_of (t : Tables) (uid : Z) : list Courier :=
  filter (λ c, customer_id c = Some uid) (Couriers t).

(** *** Statements with a bound [courier_id] *)

Section MySQL.

Variable E : Engine.

(** [SELECT courier_id, bill_number FROM Couriers WHERE courier_id = ?] *)
Definition q_courier_by_id (id : JsVal) (t : Tables) : list Courier :=
  filter (λ c, sql_eq_key E id (courier_id c)) (Couriers t).

(** [SELECT ... FROM Delivery_History WHERE courier_id = ?
     ORDER BY changed_at DESC] *)
Definition q_delivery_history (id : JsVal) (t : Tables) : list HistoryRow :=
  merge_sort history_newest_first
    (filter (λ h, sql_eq_key E id (history_courier_id h)) (Delivery_History t)).

(** [SELECT ... FROM Courier_Audit WHERE courier_id = ?
     ORDER BY changed_at DESC] *)
Definition q_courier_audit (id : JsVal) (t : Tables) : list AuditRow :=
  merge_sort audit_newest_first
    (filter (λ a, sql_eq_key E id (audit_courier_id a)) (Courier_Audit t)).

(** [DELETE FROM Couriers WHERE courier_id = ?]; the rows of the two log
    tables that reference a deleted order go with it ("CASCADE will handle
    related records"). *)
Definition delete_by_id (id : JsVal) (t : Tables) : Tables :=
  {| Users := Users t;
     Couriers := filter (λ c, ¬ sql_eq_key E id (courier_id c)) (Couriers t);
     Delivery_History :=
       filter (λ h, ¬ sql_eq_key E id (history_courier_id h))
              (Delivery_History t);
     Courier_Audit :=
       filter (λ a, ¬ sql_eq_key E id (audit_courier_id a))
              (Courier_Audit t) |}.

(** A statement sent with the wrong number of parameters is rejected. *)
Definition bad_arity : JsError := mkError "Incorrect arguments to statement".

Definition mysql_exec (q : Stmt) (args : list JsVal) (t : Tables)
    : Answer * Tables :=
  match q, args with
  | SelectCourierById, [id] =>
      (inr (js_courier_key <$> q_courier_by_id id t), t)
  | DeleteCourierById, [id] => (inr [], delete_by_id id t)
  | SelectDeliveryHistory, [id] =>
      (inr (js_history <$> q_delivery_history id t), t)
  | SelectCourierAudit, [id] =>
      (inr (js_audit <$> q_courier_audit id t), t)
  | SelectNested, [] => (inr (js_user <$> q_nested E t), t)
  | SelectAggregate, [] => (inr (js_status_row <$> q_aggregate t), t)
  | SelectCustomerActivity, [] =>
      (inr (js_activity_row <$> q_customer_activity t), t)
  | CallAddCourierOrder, [_; _; _; _; _]
  | CallUpdateCourierStatus, [_; _; _]
  | SelectGetCourierStatus, [_] => routine E q args t
  | _, _ => (inl bad_arity, t)
  end.

Definition mysql_pool : Pool Tables := mysql_exec.

End MySQL.

(** ** Engines and data for the examples *)

(** Decimal numerals denote their value; any other text, and any other kind
    of parameter, equals no key. *)
Fixpoint digits_value (acc : Z) (s : string) : option Z :=
  match s with
  | EmptyString => Some acc
  | String c s' =>
      let d := Z.of_N (Ascii.N_of_ascii c) - 48 in
      if (0 <=? d) && (d <=? 9) then digits_value (10 * acc + d) s' else None
  end.

Definition decimal_eq_key (v : JsVal) (k : Z) : bool :=
  match v with
  | JNum n => n =? k
  | JStr (String c s) =>
      match digits_value 0 (String c s) with
      | Some n => n =? k
      | None => false
      end
  | _ => false
  end.

(** A database in which the stored routines were never installed: calling
    one is rejected. *)
Definition routines_missing (q : Stmt) (args : list JsVal) (t : Tables)
    : Answer * Tables :=
  (inl (mkError "PROCEDURE or FUNCTION does not exist"), t).

(** Names in code-point order. *)
Definition example_engine : Engine.
Proof.
  refine {| sql_eq_key := decimal_eq_key;
            routine := routines_missing;
            collate := String.leb |}.
  - exact String.leb_total.
  - intros a b c Hab Hbc. apply Is_true_true.
    apply Is_true_true in Hab, Hbc.
    exact (transitivity (R := String.le) Hab Hbc).
Defined.

Definition example_pool : Pool Tables := mysql_pool example_engine.

(** A database whose stored routines resolve without a result set and
    change nothing (an update that touches no row). *)
Definition routines_silent (q : Stmt) (args : list JsVal) (t : Tables)
    : Answer * Tables :=
  (inr [], t).

Definition silent_engine : Engine :=
  {| sql_eq_key := decimal_eq_key;
     routine := routines_silent;
     collate := collate example_engine;
     collate_total := collate_total example_engine;
     collate_trans := collate_trans example_engine |}.

Definition silent_pool : Pool Tables := mysql_pool silent_engine.

(** A test double for the pool: it answers every statement with the same
    answer and counts nothing but what [run] records. *)
Definition mock_pool (ans : Answer) : Pool unit := λ _ _ db, (ans, db).

(** *** Example data *)

Definition alice : User := mkUser 1 "Alice" "alice@example.com" None.
Definition bob : User := mkUser 2 "Bob" "bob@example.com" (Some "555-0102").
Definition carol : User := mkUser 3 "Carol" "carol@example.com" None.

Definition order7 : Courier :=
  mkCourier 7 (Some 2) (Some 1) "BN-100" "1 Pickup Rd" "9 Delivery St"
            (Some "Delivered") 1000.
Definition order8 : Courier :=
  mkCourier 8 (Some 1) (Some 1) "BN-101" "2 Pickup Rd" "8 Delivery St"
            (Some "Pending") 1100.
Definition order9 : Courier :=
  mkCourier 9 (Some 2) None "BN-102" "3 Pickup Rd" "7 Delivery St"
            (Some "Pending") 1200.

Definition example_tables : Tables :=
  {| Users := [carol; alice; bob];
     Couriers := [order7; order8; order9];
     Delivery_History :=
       [mkHistoryRow 1 7 (Some "Pending") (Some "In Transit") 1010
                     (Some "admin@example.com");
        mkHistoryRow 2 7 (Some "In Transit") (Some "Delivered") 1020
                     (Some "admin@example.com")];
     Courier_Audit :=
       [mkAuditRow 1 7 "UPDATE" (Some "Pending") (Some "In Transit") 1010
                   (Some "admin@example.com");
        mkAuditRow 2 7 "UPDATE" (Some "In Transit") (Some "Delivered") 1020
                   (Some "admin@example.com")] |}.

Definition empty_tables : Tables := mkTables [] [] [] [].

(** Requests used in the examples. *)
Definition request_for (id : string) : Request :=
  mkRequest [("id", JStr id)] JUndefined.

Definition add_request_zero_customer : Request :=
  mkRequest [] (JObj [("customer_id", JNum 0); ("admin_id", JNum 1);
                      ("bill_number", JStr "BN-103");
                      ("pickup_address", JStr "4 Pickup Rd");
                      ("delivery_address", JStr "6 Delivery St")]).

Definition add_request_complete : Request :=
  mkRequest [] (JObj [("customer_id", JNum 2); ("admin_id", JNum 1);
                      ("bill_number", JStr "BN-103");
                      ("pickup_address", JStr "4 Pickup Rd");
                      ("delivery_address", JStr "6 Delivery St")]).

Definition update_request (id : string) (body : Props) : Request :=
  mkRequest [("id", JStr id)] (JObj body).

(** A request that reached the route without a parsed body. *)
Definition bodyless_request (id : string) : Request :=
  mkRequest [("id", JStr id)] JUndefined.

(** [k in v] for an own property of the body. *)
Definition body_has (v : JsVal) (k : string) : bool :=
  match v with
  | JObj o => has_prop o k
  | _ => false
  end.

(** ** Vocabulary of the statements below *)

(** The fields each validating route requires, in the order the route
    passes them on. *)
Definition add_required : list string :=
  ["customer_id"; "admin_id"; "bill_number"; "pickup_address";
   "delivery_address"].

Definition update_required : list string :=
  ["new_status"; "changed_by_admin_email"].

(** The values of JSON that [!v] treats as missing although the key is
    there. *)
Definition falsy_present : list JsVal :=
  [JNum 0; JStr ""; JBool false; JNull].

(** The body with every occurrence of key [k] taken out. *)
Definition without (k : string) (o : Props) : Props :=
  filter (λ kv, kv.1 ≠ k) o.

(** A property of the response body. *)
Definition field (r : Response) (k : string) : JsVal :=
  match res_body r with
  | JObj o => prop o k
  | _ => JUndefined
  end.

(** *** The responses of the routes *)

Definition add_rejected : Response :=
  mkResponse 400 (JObj [("success", JBool false);
                        ("message", JStr "All fields are required")]).

Definition add_created (data : JsVal) : Response :=
  mkResponse 201 (JObj [
    ("success", JBool true);
    ("message", JStr "Courier order added successfully using stored procedure");
    ("data", data)]).

Definition add_failed (e : JsError) : Response :=
  mkResponse 500 (JObj [("success", JBool false);
                        ("message", JStr "Failed to add courier order");
                        ("error", JStr (message e))]).

Definition update_rejected : Response :=
  mkResponse 400 (JObj [("success", JBool false);
                        ("message", JStr "Status and admin email are required")]).

Definition update_done (id new_status : JsVal) : Response :=
  mkResponse 200 (JObj [
    ("success", JBool true);
    ("message",
     JStr "Courier status updated successfully using stored procedure (Trigger fired automatically)");
    ("courier_id", id);
    ("new_status", new_status)]).

Definition update_failed (e : JsError) : Response :=
  mkResponse 500 (JObj [("success", JBool false);
                        ("message", JStr "Failed to update courier status");
                        ("error", JStr (message e))]).

Definition not_found : Response :=
  mkResponse 404 (JObj [("success", JBool false);
                        ("message", JStr "Courier not found")]).

Definition status_found (id st : JsVal) : Response :=
  mkResponse 200 (JObj [
    ("success", JBool true);
    ("message", JStr "Status retrieved using database function");
    ("courier_id", id);
    ("status", st)]).

Definition logs_found (id : JsVal) (history audit : list JsVal) : Response :=
  mkResponse 200 (JObj [
    ("success", JBool true);
    ("message", JStr "Logs retrieved successfully (Proof of Trigger execution)");
    ("courier_id", id);
    ("delivery_history", JArr history);
    ("audit_logs", JArr audit);
    ("trigger_info",
     JStr "These records were automatically created by the after_courier_status_update trigger")]).

Definition status_failed (e : JsError) : Response :=
  mkResponse 500 (JObj [("success", JBool false);
                        ("message", JStr "Failed to get courier status");
                        ("error", JStr (message e))]).

Definition logs_failed (e : JsError) : Response :=
  mkResponse 500 (JObj [("success", JBool false);
                        ("message", JStr "Failed to fetch logs");
                        ("error", JStr (message e))]).

Definition delete_done (id bill : JsVal) (row : JsVal) : Response :=
  mkResponse 200 (JObj [
    ("success", JBool true);
    ("message",
     JStr ("Courier #" +:+ to_string id +:+ " (" +:+ to_string bill +:+
           ") deleted successfully"));
    ("deleted_courier", row)]).

Definition delete_failed (e : JsError) : Response :=
  mkResponse 500 (JObj [("success", JBool false);
                        ("message", JStr "Failed to delete courier");
                        ("error", JStr (message e))]).

Definition nested_found (rows : list JsVal) : Response :=
  mkResponse 200 (JObj [
    ("success", JBool true);
    ("message", JStr "NESTED Query executed successfully");
    ("query_type", JStr "NESTED (Users with Delivered couriers)");
    ("description",
     JStr "Finds all customers who have at least one delivered courier");
    ("count", JNum (Z.of_nat (length rows)));
    ("data", JArr rows)]).

Definition aggregate_found (rows : list JsVal) : Response :=
  mkResponse 200 (JObj [
    ("success", JBool true);
    ("message", JStr "AGGREGATE Query executed successfully");
    ("query_type", JStr "AGGREGATE (GROUP BY status with COUNT)");
    ("description", JStr "Groups couriers by status and counts orders");
    ("count", JNum (Z.of_nat (length rows)));
    ("data", JArr rows)]).

Definition activity_found (rows : list JsVal) : Response :=
  mkResponse 200 (JObj [
    ("success", JBool true);
    ("message", JStr "Customer Activity Report");
    ("data", JArr rows)]).

(** *** What the reports are to contain *)

(** The membership report in the specification's words: the user is the
    customer of at least one order whose status is exactly Delivered. *)
Definition has_delivered_order (t : Tables) (u : User) : Prop :=
  Exists (λ c, customer_id c = Some (user_id u) ∧ status c = Some "Delivered")
         (Couriers t).

Global Instance has_delivered_order_dec (t : Tables) (u : User) :
  Decision (has_delivered_order t u).
Proof. unfold has_delivered_order. apply _. Defined.

(** The orders with a given status, and the users with at least one order,
    in the specification's words. *)
Definition orders_with_status (t : Tables) (s : option string) : list Courier :=
  filter (λ c, status c = s) (Couriers t).

Definition has_order (t : Tables) (uid : Z) : Prop :=
  Exists (λ c, customer_id c = Some uid) (Couriers t).

Global Instance has_order_dec (t : Tables) (uid : Z) : Decision (has_order t uid).
Proof. unfold has_order. apply _. Defined.

(** The key the customer-activity report groups a user under. *)
Definition user_key (u : User) : Z * string * string :=
  (user_id u, name u, email u).

(** The row the customer-activity report owes a user: the user's columns
    with the count and the statuses of the user's orders. *)
Definition activity_of (t : Tables) (u : User) : ActivityRow :=
  {| activity_user_id := user_id u;
     customer_name := name u;
     activity_email := email u;
     total_orders := length (orders_of t (user_id u));
     order_statuses :=
       group_concat_distinct (omap status (orders_of t (user_id u))) |}.

(** *** Three statements in the specification's own words *)

(** Create: a missing field gives 400 without a database call; with all
    five present there is exactly one call and a 201. *)
Definition create_as_specified {DB} `{!Pool DB} (req : Request) (db : DB) : Prop :=
  let o := run (CourierRoutes.post_add req) db in
  ((∃ f, f ∈ add_required ∧ body_has (req_body req) f = false) →
     ∃ r, result o = inr r ∧ res_code r = 400
          ∧ field r "success" = JBool false ∧ calls o = [])
  ∧ ((∀ f, f ∈ add_required → body_has (req_body req) f = true) →
     ∃ r, result o = inr r ∧ res_code r = 201
          ∧ field r "success" = JBool true
          ∧ calls o = [(CallAddCourierOrder,
                        read (req_body req) <$> add_required)]).

(** Status update: a response other than the 200 is the 400 for a missing
    field (missing in the wide sense of the validation: not truthy) or a 500
    for a database error (a statement that was sent and rejected). *)
Definition update_failures_as_specified {DB} `{!Pool DB}
    (req : Request) (db : DB) : Prop :=
  let o := run (CourierRoutes.put_update_status req) db in
  ∀ r, result o = inr r →
    res_code r = 200
    ∨ (res_code r = 400
       ∧ ∃ f, f ∈ update_required ∧ truthy (read (req_body req) f) = false)
    ∨ (res_code r = 500
       ∧ ∃ q args e, (q, args) ∈ calls o ∧ (pool_exec q args db).1 = inl e).

(** Delete: the success data is [{deleted: {id, bill_number}}]. *)
Definition delete_data_as_specified (r : Response) (id : Z) (bill : string) : Prop :=
  field r "deleted" = JObj [("id", JNum id); ("bill_number", JStr bill)].

(** *** Vocabulary of the further properties *)

(** The values [!v] negates to [true]. *)
Definition js_falsy : list JsVal :=
  [JUndefined; JNull; JBool false; JNum 0; JStr ""].

(** The routes modelled above. *)
Definition routes : list (Request → Handler Response) :=
  [CourierRoutes.post_add; CourierRoutes.put_update_status;
   CourierRoutes.get_status; CourierRoutes.get_logs;
   CourierRoutes.delete_courier; ReportRoutes.get_nested;
   ReportRoutes.get_aggregate; ReportRoutes.get_customer_activity].

(** A response whose [success] flag agrees with its status code. *)
Definition well_formed (r : Response) : Prop :=
  (res_code r = 200 ∨ res_code r = 201) ∧ field r "success" = JBool true
  ∨ (res_code r = 400 ∨ res_code r = 404 ∨ res_code r = 500)
    ∧ field r "success" = JBool false.

Definition nested_failed (e : JsError) : Response :=
  mkResponse 500 (JObj [("success", JBool false);
                        ("message", JStr "Failed to execute NESTED query");
                        ("error", JStr (message e))]).

Definition aggregate_failed (e : JsError) : Response :=
  mkResponse 500 (JObj [("success", JBool false);
                        ("message", JStr "Failed to execute AGGREGATE query");
                        ("error", JStr (message e))]).

Definition activity_failed (e : JsError) : Response :=
  mkResponse 500 (JObj [("success", JBool false);
                        ("error", JStr (message e))]).

(** The routes without validation, each with its first statement and its
    500 response. *)
Definition unvalidated_routes
    : list ((Request → Handler Response) * Stmt * (JsError → Response)) :=
  [(CourierRoutes.get_status, SelectGetCourierStatus, status_failed);
   (CourierRoutes.get_logs, SelectDeliveryHistory, logs_failed);
   (CourierRoutes.delete_courier, SelectCourierById, delete_failed);
   (ReportRoutes.get_nested, SelectNested, nested_failed);
   (ReportRoutes.get_aggregate, SelectAggregate, aggregate_failed);
   (ReportRoutes.get_customer_activity, SelectCustomerActivity,
    activity_failed)].

(** A pool that has lost its connection. *)
Definition connection_lost : JsError := mkError "Connection lost".
Definition down_pool : Pool unit := mock_pool (inl connection_lost).


(** An order whose [customer_id] is the [user_id] of some user. *)
Definition customer_known (t : Tables) (c : Courier) : Prop :=
  Exists (λ u, customer_id c = Some (user_id u)) (Users t).

Global Instance customer_known_dec (t : Tables) (c : Courier) :
  Decision (customer_known t c).
Proof. unfold customer_known. apply _. Defined.


(** ** The listing routes and the remaining reports *)

(** The routes of this part call [pool.query(sql)] with the statement alone;
    they read one more table, [Admins]. *)

Record Admin : Type := mkAdmin {
  admin_id : Z;
  admin_name : string;   (* Admins.name *)
  admin_mail : string    (* Admins.email *)
}.

Record Database : Type := mkDatabase {
  tables : Tables;
  Admins : list Admin
}.

Inductive ListStmt : Type :=
| SelectCouriers
| SelectUsers
| SelectAdmins
| SelectJoin
| SelectAdminPerformance.

Global Instance ListStmt_eq_dec : EqDecision ListStmt.
Proof. solve_decision. Defined.

Definition list_sql_text (q : ListStmt) : string :=
  match q with
  | SelectCouriers =>
      "SELECT c.courier_id, c.customer_id, c.managed_by_admin_id, c.bill_number, c.pickup_address, c.delivery_address, c.status, c.created_at, u.name AS customer_name, u.email AS customer_email, a.name AS admin_name, a.email AS admin_email FROM Couriers c LEFT JOIN Users u ON c.customer_id = u.user_id LEFT JOIN Admins a ON c.managed_by_admin_id = a.admin_id ORDER BY c.created_at DESC"
  | SelectUsers => "SELECT user_id, name, email FROM Users ORDER BY name"
  | SelectAdmins => "SELECT admin_id, name, email FROM Admins ORDER BY name"
  | SelectJoin =>
      "SELECT T1.courier_id, T1.bill_number, T1.status, T1.pickup_address, T1.delivery_address, T1.created_at, T2.name AS customer_name, T2.email AS customer_email, T3.name AS admin_name, T3.email AS admin_email FROM Couriers T1 JOIN Users T2 ON T1.customer_id = T2.user_id LEFT JOIN Admins T3 ON T1.managed_by_admin_id = T3.admin_id ORDER BY T1.created_at DESC"
  | SelectAdminPerformance =>
      "SELECT a.admin_id, a.name AS admin_name, a.email AS admin_email, COUNT(c.courier_id) AS total_couriers_managed, SUM(CASE WHEN c.status = 'Delivered' THEN 1 ELSE 0 END) AS delivered_count, SUM(CASE WHEN c.status = 'In Transit' THEN 1 ELSE 0 END) AS in_transit_count, SUM(CASE WHEN c.status = 'Pending' THEN 1 ELSE 0 END) AS pending_count FROM Admins a LEFT JOIN Couriers c ON a.admin_id = c.managed_by_admin_id GROUP BY a.admin_id, a.name, a.email ORDER BY total_couriers_managed DESC"
  end.

(** *** Handlers of statements without parameters *)

Inductive ListHandler (A : Type) : Type :=
| LRet (a : A)
| LThrow (e : JsError)
| LQuery (q : ListStmt) (k : Answer → ListHandler A).

Arguments LRet {A} a.
Arguments LThrow {A} e.
Arguments LQuery {A} q k.

Fixpoint list_bind {A B} (f : A → ListHandler B) (h : ListHandler A)
    : ListHandler B :=
  match h with
  | LRet a => f a
  | LThrow e => LThrow e
  | LQuery q k => LQuery q (λ r, list_bind f (k r))
  end.

Global Instance ListHandler_ret : MRet ListHandler := @LRet.
Global Instance ListHandler_bind : MBind ListHandler := @list_bind.

(** [await pool.query(q)] *)
Definition list_query (q : ListStmt) : ListHandler (list JsVal) :=
  LQuery q (λ r, match r with
                 | inl e => LThrow e
                 | inr rows => LRet rows
                 end).

Fixpoint list_try_catch {A} (h : ListHandler A) (c : JsError → ListHandler A)
    : ListHandler A :=
  match h with
  | LRet a => LRet a
  | LThrow e => c e
  | LQuery q k => LQuery q (λ r, list_try_catch (k r) c)
  end.

Class ListPool (DB : Type) : Type :=
  list_exec : ListStmt → DB → Answer * DB.

Record ListOutcome (DB A : Type) : Type := mkListOutcome {
  list_result : JsError + A;
  list_final_db : DB;
  list_calls : list ListStmt
}.

Arguments mkListOutcome {DB A} list_result list_final_db list_calls.
Arguments list_result {DB A} l.
Arguments list_final_db {DB A} l.
Arguments list_calls {DB A} l.

Fixpoint list_run {DB} `{!ListPool DB} {A} (h : ListHandler A) (db : DB)
    : ListOutcome DB A :=
  match h with
  | LRet a => mkListOutcome (inr a) db []
  | LThrow e => mkListOutcome (inl e) db []
  | LQuery q k =>
      let '(r, db') := list_exec q db in
      let o := list_run (k r) db' in
      mkListOutcome (list_result o) (list_final_db o) (q :: list_calls o)
  end.

(** *** The routes *)

Module ListRoutes.

(** [router.get('/', ...)] of [couriers.js] *)
Definition get_couriers (req : Request) : ListHandler Response :=
  list_try_catch
    (couriers ← list_query SelectCouriers;
     mret (res_json (JObj [
       ("success", JBool true);
       ("count", JNum (Z.of_nat (length couriers)));
       ("data", JArr couriers)])))
    (λ error,
       mret (res_status_json 500 (JObj [
         ("success", JBool false);
         ("message", JStr "Failed to fetch couriers");
         ("error", JStr (message error))]))).

(** [router.get('/data/users', ...)] of [couriers.js] *)
Definition get_data_users (req : Request) : ListHandler Response :=
  list_try_catch
    (users ← list_query SelectUsers;
     mret (res_json (JObj [("success", JBool true); ("data", JArr users)])))
    (λ error,
       mret (res_status_json 500 (JObj [
         ("success", JBool false);
         ("error", JStr (message error))]))).

(** [router.get('/data/admins', ...)] of [couriers.js] *)
Definition get_data_admins (req : Request) : ListHandler Response :=
  list_try_catch
    (admins ← list_query SelectAdmins;
     mret (res_json (JObj [("success", JBool true); ("data", JArr admins)])))
    (λ error,
       mret (res_status_json 500 (JObj [
         ("success", JBool false);
         ("error", JStr (message error))]))).

(** [router.get('/join', ...)] of [reports.js] *)
Definition get_join (req : Request) : ListHandler Response :=
  list_try_catch
    (rows ← list_query SelectJoin;
     mret (res_json (JObj [
       ("success", JBool true);
       ("message", JStr "JOIN Query executed successfully");
       ("query_type", JStr "JOIN (Couriers + Users + Admins)");
       ("count", JNum (Z.of_nat (length rows)));
       ("data", JArr rows)])))
    (λ error,
       mret (res_status_json 500 (JObj [
         ("success", JBool false);
         ("message", JStr "Failed to execute JOIN query");
         ("error", JStr (message error))]))).

(** [router.get('/admin-performance', ...)] of [reports.js] *)
Definition get_admin_performance (req : Request) : ListHandler Response :=
  list_try_catch
    (rows ← list_query SelectAdminPerformance;
     mret (res_json (JObj [
       ("success", JBool true);
       ("message", JStr "Admin Performance Report");
       ("data", JArr rows)])))
    (λ error,
       mret (res_status_json 500 (JObj [
         ("success", JBool false);
         ("error", JStr (message error))]))).

End ListRoutes.


(** *** The statements over the tables *)

(** The right side of a LEFT JOIN: the matching rows, or one row of NULLs
    when there is none. *)
Definition optional {A} (l : list A) : list (option A) :=
  match l with
  | [] => [None]
  | _ => Some <$> l
  end.

(** [ON c.customer_id = u.user_id] and [ON c.managed_by_admin_id =
    a.admin_id]: a NULL reference matches nothing. *)
Definition customers_of (us : list User) (c : Courier) : list User :=
  filter (λ u, customer_id c = Some (user_id u)) us.

Definition admins_of (ads : list Admin) (c : Courier) : list Admin :=
  filter (λ a, managed_by_admin_id c = Some (admin_id a)) ads.

(** A row of [Couriers] joined with its customer and its admin. *)
Record CourierView : Type := mkCourierView {
  view_courier : Courier;
  view_customer : option User;
  view_admin : option Admin
}.

(** [Couriers c LEFT JOIN Users u ... LEFT JOIN Admins a ...] *)
Definition views_of (d : Database) (c : Courier) : list CourierView :=
  u ← optional (customers_of (Users (tables d)) c);
  a ← optional (admins_of (Admins d) c);
  [mkCourierView c u a].

(** [Couriers T1 JOIN Users T2 ... LEFT JOIN Admins T3 ...] *)
Definition join_views_of (d : Database) (c : Courier) : list CourierView :=
  u ← customers_of (Users (tables d)) c;
  a ← optional (admins_of (Admins d) c);
  [mkCourierView c (Some u) a].

(** [ORDER BY created_at DESC] on the order's column. *)
Definition view_newest_first : relation CourierView :=
  λ v1 v2, created_at (view_courier v2) ≤ created_at (view_courier v1).

Global Instance view_newest_first_dec : RelDecision view_newest_first.
Proof. intros v1 v2. unfold view_newest_first. apply _. Defined.

Definition q_couriers (d : Database) : list CourierView :=
  merge_sort view_newest_first (Couriers (tables d) ≫= views_of d).

Definition q_join (d : Database) : list CourierView :=
  merge_sort view_newest_first (Couriers (tables d) ≫= join_views_of d).

Definition js_courier_view (v : CourierView) : JsVal :=
  let c := view_courier v in
  JObj [("courier_id", JNum (courier_id c));
        ("customer_id", js_opt_num (customer_id c));
        ("managed_by_admin_id", js_opt_num (managed_by_admin_id c));
        ("bill_number", JStr (bill_number c));
        ("pickup_address", JStr (pickup_address c));
        ("delivery_address", JStr (delivery_address c));
        ("status", js_opt_str (status c));
        ("created_at", JNum (created_at c));
        ("customer_name", js_opt_str (name <$> view_customer v));
        ("customer_email", js_opt_str (email <$> view_customer v));
        ("admin_name", js_opt_str (admin_name <$> view_admin v));
        ("admin_email", js_opt_str (admin_mail <$> view_admin v))].

Definition js_join_view (v : CourierView) : JsVal :=
  let c := view_courier v in
  JObj [("courier_id", JNum (courier_id c));
        ("bill_number", JStr (bill_number c));
        ("status", js_opt_str (status c));
        ("pickup_address", JStr (pickup_address c));
        ("delivery_address", JStr (delivery_address c));
        ("created_at", JNum (created_at c));
        ("customer_name", js_opt_str (name <$> view_customer v));
        ("customer_email", js_opt_str (email <$> view_customer v));
        ("admin_name", js_opt_str (admin_name <$> view_admin v));
        ("admin_email", js_opt_str (admin_mail <$> view_admin v))].

(** [SELECT user_id, name, email FROM Users ORDER BY name] *)
Definition q_users (E : Engine) (d : Database) : list User :=
  merge_sort (by_name E) (Users (tables d)).

Definition js_user_entry (u : User) : JsVal :=
  JObj [("user_id", JNum (user_id u)); ("name", JStr (name u));
        ("email", JStr (email u))].

(** [SELECT admin_id, name, email FROM Admins ORDER BY name] *)
Definition by_admin_name (E : Engine) : relation Admin :=
  λ a1 a2, collate E (admin_name a1) (admin_name a2) = true.

Global Instance by_admin_name_dec (E : Engine) : RelDecision (by_admin_name E).
Proof. intros a1 a2. unfold by_admin_name. apply _. Defined.

Definition q_admins (E : Engine) (d : Database) : list Admin :=
  merge_sort (by_admin_name E) (Admins d).

Definition js_admin_entry (a : Admin) : JsVal :=
  JObj [("admin_id", JNum (admin_id a)); ("name", JStr (admin_name a));
        ("email", JStr (admin_mail a))].

(** *** The admin-performance report *)

(** [Admins a LEFT JOIN Couriers c ON a.admin_id = c.managed_by_admin_id] *)
Definition managed_by (cs : list Courier) (a : Admin) : list Courier :=
  filter (λ c, managed_by_admin_id c = Some (admin_id a)) cs.

Definition admin_rows (cs : list Courier) (a : Admin)
    : list (Admin * option Courier) :=
  pair a <$> optional (managed_by cs a).

Definition admin_join (ads : list Admin) (cs : list Courier)
    : list (Admin * option Courier) :=
  ads ≫= admin_rows cs.

(** [GROUP BY a.admin_id, a.name, a.email] *)
Definition admin_key (a : Admin) : Z * string * string :=
  (admin_id a, admin_name a, admin_mail a).

Definition admin_group (k : Z * string * string)
    (js : list (Admin * option Courier)) : list (Admin * option Courier) :=
  filter (λ j, admin_key j.1 = k) js.

(** [CASE WHEN c.status = s THEN 1 ELSE 0 END]: a NULL status, and the
    NULL row of an admin without orders, give [0]. *)
Definition status_is (s : string) (c : option Courier) : nat :=
  match c ≫= status with
  | Some s' => if decide (s' = s) then 1 else 0
  | None => 0
  end.

Record PerformanceRow : Type := mkPerformanceRow {
  performance_admin_id : Z;
  performance_admin_name : string;
  performance_admin_email : string;
  total_couriers_managed : nat;
  delivered_count : nat;
  in_transit_count : nat;
  pending_count : nat
}.

(** One output row per group.  [COUNT(c.courier_id)] counts the rows whose
    order is not NULL; each [SUM] runs over all rows of the group, of which
    there is at least one. *)
Definition performance_row (js : list (Admin * option Courier))
    (k : Z * string * string) : PerformanceRow :=
  let g := admin_group k js in
  {| performance_admin_id := k.1.1;
     performance_admin_name := k.1.2;
     performance_admin_email := k.2;
     total_couriers_managed := length (omap (λ j, courier_id <$> j.2) g);
     delivered_count := sum_list ((λ j, status_is "Delivered" j.2) <$> g);
     in_transit_count := sum_list ((λ j, status_is "In Transit" j.2) <$> g);
     pending_count := sum_list ((λ j, status_is "Pending" j.2) <$> g) |}.

(** [ORDER BY total_couriers_managed DESC] *)
Definition by_managed_desc : relation PerformanceRow :=
  λ r1 r2, (total_couriers_managed r2 ≤ total_couriers_managed r1)%nat.

Global Instance by_managed_desc_dec : RelDecision by_managed_desc.
Proof. intros r1 r2. unfold by_managed_desc. apply _. Defined.

Definition q_admin_performance (d : Database) : list PerformanceRow :=
  let js := admin_join (Admins d) (Couriers (tables d)) in
  merge_sort by_managed_desc
    (performance_row js <$> remove_dups ((λ j, admin_key j.1) <$> js)).

(** What the listing statements need of the engine and the driver: the
    engine of the statements above, and how the driver hands the DECIMAL of
    a [SUM] to JavaScript (as text or as a number, by its configuration). *)
Record ListEngine : Type := mkListEngine {
  engine : Engine;
  js_decimal : nat → JsVal
}.

Definition js_performance_row (L : ListEngine) (r : PerformanceRow) : JsVal :=
  JObj [("admin_id", JNum (performance_admin_id r));
        ("admin_name", JStr (performance_admin_name r));
        ("admin_email", JStr (performance_admin_email r));
        ("total_couriers_managed", JNum (Z.of_nat (total_couriers_managed r)));
        ("delivered_count", js_decimal L (delivered_count r));
        ("in_transit_count", js_decimal L (in_transit_count r));
        ("pending_count", js_decimal L (pending_count r))].

(** The five statements read and never write. *)
Definition mysql_list_exec (L : ListEngine) (q : ListStmt) (d : Database)
    : Answer * Database :=
  (inr match q with
       | SelectCouriers => js_courier_view <$> q_couriers d
       | SelectUsers => js_user_entry <$> q_users (engine L) d
       | SelectAdmins => js_admin_entry <$> q_admins (engine L) d
       | SelectJoin => js_join_view <$> q_join d
       | SelectAdminPerformance =>
           js_performance_row L <$> q_admin_performance d
       end, d).

Definition mysql_list_pool (L : ListEngine) : ListPool Database :=
  mysql_list_exec L.

(** *** Examples *)

Definition example_list_engine : ListEngine :=
  {| engine := example_engine; js_decimal := λ n, JStr (pretty n) |}.

Definition dana : Admin := mkAdmin 1 "Dana" "dana@example.com".
Definition eli : Admin := mkAdmin 2 "Eli" "eli@example.com".

Definition example_database : Database :=
  {| tables := example_tables; Admins := [eli; dana] |}.

(** An order whose customer was never a user. *)
Definition order10 : Courier :=
  mkCourier 10 (Some 99) (Some 1) "BN-103" "4 Pickup Rd" "6 Delivery St"
            (Some "In Transit") 1300.

Definition orphan_database : Database :=
  {| tables := {| Users := Users example_tables;
                  Couriers := order10 :: Couriers example_tables;
                  Delivery_History := [];
                  Courier_Audit := [] |};
     Admins := [eli; dana] |}.

(** A test double for the pool of the listing routes. *)
Definition mock_list_pool (ans : Answer) : ListPool unit := λ _ db, (ans, db).

(** *** What the listings are to contain *)

(** An order managed by a known admin. *)
Definition admin_known (d : Database) (c : Courier) : Prop :=
  Exists (λ a, managed_by_admin_id c = Some (admin_id a)) (Admins d).

Global Instance admin_known_dec (d : Database) (c : Courier) :
  Decision (admin_known d c).
Proof. unfold admin_known. apply _. Defined.

(** The row the admin-performance report owes an admin. *)
Definition performance_of (d : Database) (a : Admin) : PerformanceRow :=
  let cs := managed_by (Couriers (tables d)) a in
  {| performance_admin_id := admin_id a;
     performance_admin_name := admin_name a;
     performance_admin_email := admin_mail a;
     total_couriers_managed := length cs;
     delivered_count := length (filter (λ c, status c = Some "Delivered") cs);
     in_transit_count := length (filter (λ c, status c = Some "In Transit") cs);
     pending_count := length (filter (λ c, status c = Some "Pending") cs) |}.


(** *** The responses of the listing routes *)

Definition couriers_found (rows : list JsVal) : Response :=
  mkResponse 200 (JObj [("success", JBool true);
                        ("count", JNum (Z.of_nat (length rows)));
                        ("data", JArr rows)]).

Definition couriers_failed (e : JsError) : Response :=
  mkResponse 500 (JObj [("success", JBool false);
                        ("message", JStr "Failed to fetch couriers");
                        ("error", JStr (message e))]).

Definition entries_found (rows : list JsVal) : Response :=
  mkResponse 200 (JObj [("success", JBool true); ("data", JArr rows)]).

Definition bare_failure (e : JsError) : Response :=
  mkResponse 500 (JObj [("success", JBool false);
                        ("error", JStr (message e))]).

Definition join_found (rows : list JsVal) : Response :=
  mkResponse 200 (JObj [
    ("success", JBool true);
    ("message", JStr "JOIN Query executed successfully");
    ("query_type", JStr "JOIN (Couriers + Users + Admins)");
    ("count", JNum (Z.of_nat (length rows)));
    ("data", JArr rows)]).

Definition join_failed (e : JsError) : Response :=
  mkResponse 500 (JObj [("success", JBool false);
                        ("message", JStr "Failed to execute JOIN query");
                        ("error", JStr (message e))]).

Definition performance_found (rows : list JsVal) : Response :=
  mkResponse 200 (JObj [("success", JBool true);
                        ("message", JStr "Admin Performance Report");
                        ("data", JArr rows)]).

(** The listing routes, each with its statement and its two responses. *)
Definition list_routes
    : list ((Request → ListHandler Response) * ListStmt
            * (list JsVal → Response) * (JsError → Response)) :=
  [(ListRoutes.get_couriers, SelectCouriers, couriers_found, couriers_failed);
   (ListRoutes.get_data_users, SelectUsers, entries_found, bare_failure);
   (ListRoutes.get_data_admins, SelectAdmins, entries_found, bare_failure);
   (ListRoutes.get_join, SelectJoin, join_found, join_failed);
   (ListRoutes.get_admin_performance, SelectAdminPerformance,
    performance_found, bare_failure)].


(** * Properties *)

(** ** Basic facts *)

Lemma prop_without (k : string) (o : Props) : prop (without k o) k = JUndefined.
Proof.
  induction o as [|[k' v] o IH]; [done|].
  unfold without in *. cbn.
  destruct (decide (k' ≠ k)) as [Hne|Heq]; [|done].
  cbn. apply String.eqb_neq in Hne. by rewrite Hne.
Qed.

Lemma filter_none {A} (P : A → Prop) `{!∀ x, Decision (P x)} (l : list A) :
  (∀ x, x ∈ l → ¬ P x) → filter P l = [].
Proof.
  induction l as [|x l IH]; intros Hnot; [done|].
  rewrite filter_cons_False by (apply Hnot; constructor).
  apply IH. intros y Hy. apply Hnot. by constructor.
Qed.

Lemma filter_all {A} (P : A → Prop) `{!∀ x, Decision (P x)} (l : list A) :
  (∀ x, x ∈ l → P x) → filter P l = l.
Proof.
  induction l as [|x l IH]; intros Hall; [done|].
  rewrite filter_cons_True by (apply Hall; constructor).
  f_equal. apply IH. intros y Hy. apply Hall. by constructor.
Qed.

Lemma read_nullish (v : JsVal) (k : string) :
  nullish v = true → read v k = JUndefined.
Proof. by destruct v. Qed.

Lemma truthy_read_not_nullish (v : JsVal) (k : string) :
  truthy (read v k) = true → nullish v = false.
Proof.
  destruct (nullish v) eqn:Hnull; [|done].
  by rewrite (read_nullish v k Hnull).
Qed.

Lemma read_object (o : Props) (k : string) : read (JObj o) k = prop o k.
Proof. reflexivity. Qed.

Lemma falsy_present_not_truthy (v : JsVal) : v ∈ falsy_present → truthy v = false.
Proof.
  unfold falsy_present. rewrite !elem_of_cons, elem_of_nil.
  intros [->|[->|[->|[->|[]]]]]; reflexivity.
Qed.

Lemma forall_required_add (P : string → Prop) :
  (∀ f, f ∈ add_required → P f) ↔
  P "customer_id" ∧ P "admin_id" ∧ P "bill_number" ∧ P "pickup_address"
  ∧ P "delivery_address".
Proof.
  unfold add_required. split.
  - intros H. repeat split; apply H; repeat constructor.
  - intros (?&?&?&?&?) f. rewrite !elem_of_cons, elem_of_nil.
    intros [->|[->|[->|[->|[->|[]]]]]]; done.
Qed.

Lemma forall_required_update (P : string → Prop) :
  (∀ f, f ∈ update_required → P f) ↔
  P "new_status" ∧ P "changed_by_admin_email".
Proof.
  unfold update_required. split.
  - intros H. split; apply H; repeat constructor.
  - intros (?&?) f. rewrite !elem_of_cons, elem_of_nil.
    intros [->|[->|[]]]; done.
Qed.

Section AnyPool.

Context {DB : Type} `{!Pool DB}.

(** Creating an order from a body that is not there fails in the
    destructuring, before validation. *)
Lemma post_add_unreadable (req : Request) (db : DB) :
  nullish (req_body req) = true →
  run (CourierRoutes.post_add req) db
  = mkOutcome
      (inr (add_failed (cannot_destructure "req.body" "customer_id"
                          (req_body req))))
      db [].
Proof.
  intros Hnull. unfold CourierRoutes.post_add, destructure.
  by rewrite Hnull.
Qed.

(** Creating an order with a falsy required field stops at validation. *)
Lemma post_add_falsy (req : Request) (db : DB) (f : string) :
  nullish (req_body req) = false →
  f ∈ add_required →
  truthy (read (req_body req) f) = false →
  run (CourierRoutes.post_add req) db = mkOutcome (inr add_rejected) db [].
Proof.
  unfold add_required. rewrite !elem_of_cons, elem_of_nil.
  intros Hbody Hf Hv. unfold CourierRoutes.post_add, destructure.
  rewrite Hbody. cbn [eval mbind Handler_bind handler_bind].
  destruct Hf as [->|[->|[->|[->|[->|[]]]]]]; rewrite Hv; simpl;
    rewrite ?orb_true_r; reflexivity.
Qed.

(** With five truthy fields the route calls the routine once. *)
Lemma post_add_truthy (req : Request) (db : DB) :
  (∀ f, f ∈ add_required → truthy (read (req_body req) f) = true) →
  run (CourierRoutes.post_add req) db =
    let args := read (req_body req) <$> add_required in
    let '(ans, db') := pool_exec CallAddCourierOrder args db in
    mkOutcome
      (inr match ans with
           | inr rows => add_created (index0 rows)
           | inl e => add_failed e
           end)
      db' [(CallAddCourierOrder, args)].
Proof.
  rewrite forall_required_add. intros (H1&H2&H3&H4&H5).
  unfold CourierRoutes.post_add, destructure.
  rewrite (truthy_read_not_nullish _ _ H1).
  cbn [eval mbind Handler_bind handler_bind].
  rewrite H1, H2, H3, H4, H5. simpl.
  destruct (pool_exec _ _ db) as [[e|rows] db']; reflexivity.
Qed.

Lemma put_update_status_unreadable (req : Request) (db : DB) :
  nullish (req_body req) = true →
  run (CourierRoutes.put_update_status req) db
  = mkOutcome
      (inr (update_failed (cannot_destructure "req.body" "new_status"
                             (req_body req))))
      db [].
Proof.
  intros Hnull. unfold CourierRoutes.put_update_status, destructure.
  by rewrite Hnull.
Qed.

Lemma put_update_status_falsy (req : Request) (db : DB) (f : string) :
  nullish (req_body req) = false →
  f ∈ update_required →
  truthy (read (req_body req) f) = false →
  run (CourierRoutes.put_update_status req) db
  = mkOutcome (inr update_rejected) db [].
Proof.
  unfold update_required. rewrite !elem_of_cons, elem_of_nil.
  intros Hbody Hf Hv. unfold CourierRoutes.put_update_status, destructure.
  rewrite Hbody. cbn [eval mbind Handler_bind handler_bind].
  destruct Hf as [->|[->|[]]]; rewrite Hv; simpl;
    rewrite ?orb_true_r; reflexivity.
Qed.

Lemma put_update_status_truthy (req : Request) (db : DB) :
  (∀ f, f ∈ update_required → truthy (read (req_body req) f) = true) →
  run (CourierRoutes.put_update_status req) db =
    let id := prop (req_params req) "id" in
    let args := id :: (read (req_body req) <$> update_required) in
    let '(ans, db') := pool_exec CallUpdateCourierStatus args db in
    mkOutcome
      (inr match ans with
           | inr _ => update_done id (read (req_body req) "new_status")
           | inl e => update_failed e
           end)
      db' [(CallUpdateCourierStatus, args)].
Proof.
  rewrite forall_required_update. intros (H1&H2).
  unfold CourierRoutes.put_update_status, destructure.
  rewrite (truthy_read_not_nullish _ _ H1).
  cbn [eval mbind Handler_bind handler_bind].
  rewrite H1, H2. simpl.
  destruct (pool_exec _ _ db) as [[e|rows] db']; reflexivity.
Qed.

(** A request either has no readable body, or a readable body with a falsy
    field among [fs], or a body in which every field of [fs] is truthy. *)
Lemma body_cases (req : Request) (fs : list string) :
  nullish (req_body req) = true
  ∨ (nullish (req_body req) = false
     ∧ ∃ f, f ∈ fs ∧ truthy (read (req_body req) f) = false)
  ∨ (nullish (req_body req) = false
     ∧ ∀ f, f ∈ fs → truthy (read (req_body req) f) = true).
Proof.
  destruct (nullish (req_body req)); [by left|right].
  induction fs as [|f fs [(_ & g & Hg & Hv)|[_ IH]]].
  - right. split; [done|]. by intros f ?%not_elem_of_nil.
  - left. split; [done|]. exists g. split; [by constructor|done].
  - destruct (truthy (read (req_body req) f)) eqn:Hf.
    + right. split; [done|]. intros g [->|?]%elem_of_cons; auto.
    + left. split; [done|]. exists f. split; [constructor|done].
Qed.

End AnyPool.

Section AnyPoolReads.

Context {DB : Type} `{!Pool DB}.

(** The status route, by cases on the answer of the function call. *)
Lemma get_status_run (req : Request) (db : DB) :
  run (CourierRoutes.get_status req) db =
    let id := prop (req_params req) "id" in
    let '(ans, db') := pool_exec SelectGetCourierStatus [id] db in
    mkOutcome
      (inr match ans with
           | inl e => status_failed e
           | inr [] => not_found
           | inr (row :: _) =>
               match member row "status" with
               | inl e => status_failed e
               | inr st => if is_null st then not_found else status_found id st
               end
           end)
      db' [(SelectGetCourierStatus, [id])].
Proof.
  unfold CourierRoutes.get_status. simpl.
  destruct (pool_exec _ _ db) as [[e|[|row rows]] db']; try reflexivity.
  simpl. destruct (member row "status") as [e|st]; simpl; [reflexivity|].
  destruct (is_null st); reflexivity.
Qed.

(** The logs route, by cases on the answers of its two queries. *)
Lemma get_logs_run (req : Request) (db : DB) :
  run (CourierRoutes.get_logs req) db =
    let id := prop (req_params req) "id" in
    let '(ans1, db1) := pool_exec SelectDeliveryHistory [id] db in
    match ans1 with
    | inl e => mkOutcome (inr (logs_failed e)) db1 [(SelectDeliveryHistory, [id])]
    | inr history =>
        let '(ans2, db2) := pool_exec SelectCourierAudit [id] db1 in
        mkOutcome
          (inr match ans2 with
               | inl e => logs_failed e
               | inr audit => logs_found id history audit
               end)
          db2 [(SelectDeliveryHistory, [id]); (SelectCourierAudit, [id])]
    end.
Proof.
  unfold CourierRoutes.get_logs. simpl.
  destruct (pool_exec _ _ db) as [[e|history] db1]; [reflexivity|].
  simpl. destruct (pool_exec _ _ db1) as [[e|audit] db2]; reflexivity.
Qed.

(** The delete route, by cases on the existence check and the delete. *)
Lemma delete_courier_run (req : Request) (db : DB) :
  run (CourierRoutes.delete_courier req) db =
    let id := prop (req_params req) "id" in
    let '(ans1, db1) := pool_exec SelectCourierById [id] db in
    match ans1 with
    | inl e => mkOutcome (inr (delete_failed e)) db1 [(SelectCourierById, [id])]
    | inr [] => mkOutcome (inr not_found) db1 [(SelectCourierById, [id])]
    | inr (row :: _) =>
        let '(ans2, db2) := pool_exec DeleteCourierById [id] db1 in
        mkOutcome
          (inr match ans2 with
               | inl e => delete_failed e
               | inr _ =>
                   match member row "bill_number" with
                   | inl e => delete_failed e
                   | inr bill => delete_done id bill row
                   end
               end)
          db2 [(SelectCourierById, [id]); (DeleteCourierById, [id])]
    end.
Proof.
  unfold CourierRoutes.delete_courier. simpl.
  destruct (pool_exec _ _ db) as [[e|[|row rows]] db1]; try reflexivity.
  simpl. destruct (pool_exec _ _ db1) as [[e|ok] db2]; [reflexivity|].
  simpl. destruct (member row "bill_number") as [e|bill]; reflexivity.
Qed.

End AnyPoolReads.

Lemma is_null_true (v : JsVal) : is_null v = true ↔ v = JNull.
Proof. destruct v; simpl; split; intros; congruence. Qed.

Lemma is_null_false (v : JsVal) : is_null v = false ↔ v ≠ JNull.
Proof. destruct v; simpl; split; intros; congruence. Qed.

(** ** Create order *)

(** C1, as the specification words it, fails: a request that carries all
    five fields, with [customer_id] equal to [0], is answered 400 and no
    statement is issued.  It fails a second time on a request without a
    parsed body: all five fields are missing and the answer is 500, not
    400. *)
Lemma create_present_zero_customer_rejected :
  (∀ f, f ∈ add_required →
        body_has (req_body add_request_zero_customer) f = true)
  ∧ run (Pool0 := example_pool)
        (CourierRoutes.post_add add_request_zero_customer) example_tables
    = mkOutcome (inr add_rejected) example_tables []
  ∧ ¬ create_as_specified (Pool0 := example_pool)
        add_request_zero_customer example_tables
  ∧ run (Pool0 := example_pool)
        (CourierRoutes.post_add (bodyless_request "")) example_tables
    = mkOutcome
        (inr (add_failed (mkError
           "Cannot destructure property 'customer_id' of 'req.body' as it is undefined.")))
        example_tables []
  ∧ ¬ create_as_specified (Pool0 := example_pool)
        (bodyless_request "") example_tables.
Proof.
  assert (Hall : ∀ f, f ∈ add_required →
            body_has (req_body add_request_zero_customer) f = true).
  { apply forall_required_add. repeat split. }
  split; [exact Hall|]. split; [reflexivity|]. split; [|split; [reflexivity|]].
  - intros [_ Hcreate]. destruct (Hcreate Hall) as (r & Hr & Hcode & _).
    simpl in Hr. injection Hr as <-. discriminate Hcode.
  - intros [Hmissing _]. destruct Hmissing as (r & Hr & Hcode & _).
    { exists "customer_id". split; [repeat constructor | reflexivity]. }
    simpl in Hr. injection Hr as <-. discriminate Hcode.
Qed.

(** C1 (amended): on a request whose body was parsed (it is neither
    [undefined] nor [null]), a required field that is missing or falsy gives
    the 400 response with [success = false], no statement is issued and the
    database is as before; with five truthy fields exactly one statement is
    issued, [CALL AddCourierOrder] with the five fields in their order, and
    the response is 201 with [success = true] when the call resolves, 500
    with [success = false] when it rejects.  (Without a parsed body the
    destructuring of [req.body] throws: 500 and no statement.) *)
Theorem create_validates_then_calls_once {DB : Type} `{!Pool DB}
    (req : Request) (db : DB) :
  let o := run (CourierRoutes.post_add req) db in
  let args := read (req_body req) <$> add_required in
  (nullish (req_body req) = false →
   (∃ f, f ∈ add_required ∧ truthy (read (req_body req) f) = false) →
     result o = inr add_rejected ∧ res_code add_rejected = 400
     ∧ field add_rejected "success" = JBool false
     ∧ calls o = [] ∧ final_db o = db)
  ∧ ((∀ f, f ∈ add_required → truthy (read (req_body req) f) = true) →
     calls o = [(CallAddCourierOrder, args)]
     ∧ sql_text CallAddCourierOrder = "CALL AddCourierOrder(?, ?, ?, ?, ?)"
     ∧ (∀ rows, (pool_exec CallAddCourierOrder args db).1 = inr rows →
          result o = inr (add_created (index0 rows))
          ∧ res_code (add_created (index0 rows)) = 201
          ∧ field (add_created (index0 rows)) "success" = JBool true)
     ∧ (∀ e, (pool_exec CallAddCourierOrder args db).1 = inl e →
          result o = inr (add_failed e)
          ∧ res_code (add_failed e) = 500
          ∧ field (add_failed e) "success" = JBool false))
  ∧ (nullish (req_body req) = true →
     ∃ e, result o = inr (add_failed e) ∧ res_code (add_failed e) = 500
          ∧ e = cannot_destructure "req.body" "customer_id" (req_body req)
          ∧ calls o = [] ∧ final_db o = db).
Proof.
  intros o args. split; [|split].
  - intros Hbody (f & Hf & Hv). subst o.
    rewrite (post_add_falsy req db f Hbody Hf Hv). by repeat split.
  - intros Hall. subst o. rewrite (post_add_truthy req db Hall).
    subst args. cbv zeta.
    destruct (pool_exec _ _ db) as [ans db']. simpl.
    split; [reflexivity|]. split; [reflexivity|].
    split; intros ? ->; by repeat split.
  - intros Hnull. subst o. rewrite (post_add_unreadable req db Hnull).
    eexists. by repeat split.
Qed.

Lemma create_validates_then_calls_once_witness :
  (let o := run (Pool0 := silent_pool)
              (CourierRoutes.post_add add_request_zero_customer)
              example_tables in
   result o = inr add_rejected ∧ calls o = [] ∧ final_db o = example_tables)
  ∧ (let o := run (Pool0 := silent_pool)
                (CourierRoutes.post_add add_request_complete)
                example_tables in
     calls o = [(CallAddCourierOrder,
                 [JNum 2; JNum 1; JStr "BN-103"; JStr "4 Pickup Rd";
                  JStr "6 Delivery St"])]
     ∧ result o = inr (add_created JUndefined))
  ∧ (let o := run (Pool0 := silent_pool)
                (CourierRoutes.post_add (bodyless_request "")) example_tables in
     result o
     = inr (add_failed (mkError
         "Cannot destructure property 'customer_id' of 'req.body' as it is undefined."))
     ∧ calls o = []).
Proof.
  split; [|split].
  - destruct (create_validates_then_calls_once (Pool0 := silent_pool)
                add_request_zero_customer example_tables) as [H _].
    destruct H as (Hr & _ & _ & Hc & Hd); [reflexivity| |].
    { exists "customer_id". split; [repeat constructor | reflexivity]. }
    exact (conj Hr (conj Hc Hd)).
  - destruct (create_validates_then_calls_once (Pool0 := silent_pool)
                add_request_complete example_tables) as (_ & H & _).
    destruct H as (Hc & _ & Hok & _).
    { apply forall_required_add. repeat split. }
    exact (conj Hc (proj1 (Hok [] eq_refl))).
  - destruct (create_validates_then_calls_once (Pool0 := silent_pool)
                (bodyless_request "") example_tables) as (_ & _ & H).
    destruct (H eq_refl) as (e & Hr & _ & -> & Hc & _).
    exact (conj Hr Hc).
Defined.

(** ** Falsy fields *)

(** C9: on create and on status update a required field that is present
    but equal to [0], the empty string, [false] or [null] gets the 400
    validation response, with no statement issued and the database left as
    it was, exactly as the same request without that field does. *)
Theorem falsy_field_rejected_as_absent {DB : Type} `{!Pool DB}
    (req : Request) (body : Props) (db : DB) (f : string) (v : JsVal) :
  req_body req = JObj body →
  v ∈ falsy_present →
  has_prop body f = true →
  prop body f = v →
  let absent := mkRequest (req_params req) (JObj (without f body)) in
  (f ∈ add_required →
     run (CourierRoutes.post_add req) db = mkOutcome (inr add_rejected) db []
     ∧ run (CourierRoutes.post_add absent) db
       = run (CourierRoutes.post_add req) db)
  ∧ (f ∈ update_required →
     run (CourierRoutes.put_update_status req) db
     = mkOutcome (inr update_rejected) db []
     ∧ run (CourierRoutes.put_update_status absent) db
       = run (CourierRoutes.put_update_status req) db)
  ∧ res_code add_rejected = 400 ∧ field add_rejected "success" = JBool false
  ∧ res_code update_rejected = 400
  ∧ field update_rejected "success" = JBool false.
Proof.
  intros Hbody Hv _ Hf absent.
  assert (Hobject : nullish (req_body req) = false) by by rewrite Hbody.
  assert (Hfalse : truthy (read (req_body req) f) = false).
  { rewrite Hbody, read_object, Hf. by apply falsy_present_not_truthy. }
  assert (Habsent : truthy (read (req_body absent) f) = false).
  { unfold absent. simpl. by rewrite read_object, prop_without. }
  split; [|split; [|by repeat split]].
  - intros Hin. rewrite (post_add_falsy req db f Hobject Hin Hfalse).
    split; [reflexivity|].
    exact (post_add_falsy absent db f eq_refl Hin Habsent).
  - intros Hin. rewrite (put_update_status_falsy req db f Hobject Hin Hfalse).
    split; [reflexivity|].
    exact (put_update_status_falsy absent db f eq_refl Hin Habsent).
Qed.

Lemma falsy_field_rejected_as_absent_witness :
  run (Pool0 := silent_pool)
      (CourierRoutes.post_add add_request_zero_customer) example_tables
  = mkOutcome (inr add_rejected) example_tables []
  ∧ run (Pool0 := silent_pool)
        (CourierRoutes.put_update_status
           (update_request "7" [("new_status", JStr "");
                                ("changed_by_admin_email",
                                 JStr "admin@example.com")]))
        example_tables
    = mkOutcome (inr update_rejected) example_tables [].
Proof.
  split.
  - refine (proj1 (proj1 (falsy_field_rejected_as_absent (Pool0 := silent_pool)
              add_request_zero_customer _ example_tables "customer_id"
              (JNum 0) eq_refl _ _ _) _)).
    + repeat constructor.
    + reflexivity.
    + reflexivity.
    + repeat constructor.
  - refine (proj1 (proj1 (proj2 (falsy_field_rejected_as_absent
              (Pool0 := silent_pool)
              (update_request "7" [("new_status", JStr "");
                                   ("changed_by_admin_email",
                                    JStr "admin@example.com")])
              _ example_tables "new_status" (JStr "") eq_refl _ _ _)) _)).
    + unfold falsy_present. apply list_elem_of_further. constructor.
    + reflexivity.
    + reflexivity.
    + repeat constructor.
Defined.

(** ** Update status *)

(** C10, as the specification words it, fails: a request without a parsed
    body is answered 500 although no statement was sent, so that no database
    error occurred; and although both fields are missing the answer is not
    the 400. *)
Lemma update_bodyless_fails_without_database_error :
  run (Pool0 := example_pool)
      (CourierRoutes.put_update_status (bodyless_request "7")) example_tables
  = mkOutcome
      (inr (update_failed (mkError
         "Cannot destructure property 'new_status' of 'req.body' as it is undefined.")))
      example_tables []
  ∧ ¬ update_failures_as_specified (Pool0 := example_pool)
        (bodyless_request "7") example_tables.
Proof.
  split; [reflexivity|]. intros Hspec.
  destruct (Hspec _ eq_refl)
    as [Hcode|[[Hcode _]|(_ & q & args & e & Hin & _)]];
    [discriminate Hcode..|].
  by apply elem_of_nil in Hin.
Qed.

(** C10 (amended): the status update never answers 404.  Every response is
    200, 400 or 500; the only statement it can issue is the routine call
    itself, so nothing is read back; and whenever the fields are truthy and
    the call resolves, the response is the 200 acknowledgement that echoes
    the request's own [id] and [new_status], whatever rows exist.  The 400
    is the answer to a parsed body with a missing or falsy field; the 500 is
    the answer to a rejected call, and to a request without a parsed body,
    on which the destructuring of [req.body] throws before any statement. *)
Theorem update_status_never_not_found {DB : Type} `{!Pool DB}
    (req : Request) (db : DB) :
  let o := run (CourierRoutes.put_update_status req) db in
  let id := prop (req_params req) "id" in
  let new_status := read (req_body req) "new_status" in
  let email := read (req_body req) "changed_by_admin_email" in
  let call := (CallUpdateCourierStatus, [id; new_status; email]) in
  (∃ r, result o = inr r ∧ res_code r ≠ 404
        ∧ (res_code r = 200 ∨ res_code r = 400 ∨ res_code r = 500)
        ∧ (res_code r = 400 ↔
           nullish (req_body req) = false
           ∧ (truthy new_status = false ∨ truthy email = false))
        ∧ (res_code r = 500 ↔
           nullish (req_body req) = true
           ∨ (truthy new_status = true ∧ truthy email = true
              ∧ ∃ e, (pool_exec CallUpdateCourierStatus
                        [id; new_status; email] db).1 = inl e)))
  ∧ (calls o = [] ∨ calls o = [call])
  ∧ (truthy new_status = true → truthy email = true →
     ∀ rows, (pool_exec CallUpdateCourierStatus [id; new_status; email]
                db).1 = inr rows →
       result o = inr (update_done id new_status) ∧ calls o = [call])
  ∧ (nullish (req_body req) = true →
     result o
     = inr (update_failed
              (cannot_destructure "req.body" "new_status" (req_body req)))
     ∧ calls o = [] ∧ final_db o = db).
Proof.
  intros o id new_status email call.
  assert (Hlast : nullish (req_body req) = true →
            result o
            = inr (update_failed
                     (cannot_destructure "req.body" "new_status" (req_body req)))
            ∧ calls o = [] ∧ final_db o = db).
  { intros Hnull. subst o.
    by rewrite (put_update_status_unreadable req db Hnull). }
  match goal with
  | |- ?A ∧ ?B ∧ ?C ∧ _ =>
      cut (A ∧ B ∧ C);
      [intros (HA & HB & HC); exact (conj HA (conj HB (conj HC Hlast)))|]
  end.
  clear Hlast.
  destruct (body_cases req update_required)
    as [Hnull|[(Hbody & f & Hf & Hv)|[Hbody Hall]]].
  - assert (Hs : truthy new_status = false).
    { subst new_status. by rewrite (read_nullish _ _ Hnull). }
    subst o. rewrite (put_update_status_unreadable req db Hnull). simpl.
    split; [|split; [by left|]].
    + eexists; split; [reflexivity|]. simpl.
      split; [done|]. split; [by right; right|]. split.
      * split; [done|]. intros [Hno _]. congruence.
      * split; [by left|done].
    + intros Hs'. congruence.
  - assert (Hfalsy : truthy new_status = false ∨ truthy email = false).
    { apply elem_of_cons in Hf as [->|Hf]; [by left|].
      apply list_elem_of_singleton in Hf as ->. by right. }
    subst o. rewrite (put_update_status_falsy req db f Hbody Hf Hv). simpl.
    split; [|split; [by left|]].
    + eexists; split; [reflexivity|]. simpl.
      split; [done|]. split; [by right; left|]. split.
      * split; [done|done].
      * split; [done|]. intros [Hnull|(Hs & He & _)]; [congruence|].
        destruct Hfalsy; congruence.
    + intros Hs He. destruct Hfalsy; congruence.
  - assert (Hs : truthy new_status = true).
    { apply Hall. repeat constructor. }
    assert (He : truthy email = true).
    { apply Hall. repeat constructor. }
    subst o. rewrite (put_update_status_truthy req db Hall). cbv zeta.
    change (read (req_body req) <$> update_required) with [new_status; email].
    fold id. subst call.
    destruct (pool_exec _ _ db) as [[e|rows] db']; simpl.
    + split; [|split; [by right|by intros ?? ? [=]]].
      eexists; split; [reflexivity|]. simpl.
      split; [done|]. split; [by right; right|]. split.
      * split; [done|]. intros [_ [?|?]]; congruence.
      * split; [|done]. intros _. right. split; [done|]. split; [done|].
        by exists e.
    + split; [|split; [by right|by intros ?? ? [=]]].
      eexists; split; [reflexivity|]. simpl.
      split; [done|]. split; [by left|]. split.
      * split; [done|]. intros [_ [?|?]]; congruence.
      * split; [done|].
        intros [Hnull|(_ & _ & e & [=])]. congruence.
Qed.

Lemma update_status_never_not_found_witness :
  let req := update_request "42" [("new_status", JStr "Delivered");
                                  ("changed_by_admin_email",
                                   JStr "admin@example.com")] in
  let o := run (Pool0 := silent_pool)
             (CourierRoutes.put_update_status req) empty_tables in
  result o = inr (update_done (JStr "42") (JStr "Delivered"))
  ∧ calls o = [(CallUpdateCourierStatus,
                [JStr "42"; JStr "Delivered"; JStr "admin@example.com"])].
Proof.
  exact (proj1 (proj2 (proj2 (update_status_never_not_found
           (Pool0 := silent_pool)
           (update_request "42" [("new_status", JStr "Delivered");
                                 ("changed_by_admin_email",
                                  JStr "admin@example.com")])
           empty_tables))) eq_refl eq_refl [] eq_refl).
Defined.

(** ** Read status *)

(** C4: the status route always answers; the answer is 404 exactly when the
    function call resolves with no row or with a first row whose [status] is
    [null]; and when it resolves with a first row whose [status] is any
    other value, the answer is the 200 response carrying that status and the
    request's [id]. *)
Theorem status_not_found_iff_no_row_or_null {DB : Type} `{!Pool DB}
    (req : Request) (db : DB) :
  let o := run (CourierRoutes.get_status req) db in
  let id := prop (req_params req) "id" in
  let ans := (pool_exec SelectGetCourierStatus [id] db).1 in
  ∃ r, result o = inr r
    ∧ calls o = [(SelectGetCourierStatus, [id])]
    ∧ (res_code r = 404 ↔
         ∃ rows, ans = inr rows
           ∧ (rows = []
              ∨ ∃ row rest, rows = row :: rest
                  ∧ member row "status" = inr JNull))
    ∧ (res_code r = 404 → r = not_found)
    ∧ (∀ row rest st,
         ans = inr (row :: rest) → member row "status" = inr st →
         st ≠ JNull →
         r = status_found id st ∧ res_code r = 200
         ∧ field r "success" = JBool true
         ∧ field r "status" = st ∧ field r "courier_id" = id).
Proof.
  intros o id ans. subst o ans. rewrite get_status_run. cbv zeta. fold id.
  destruct (pool_exec _ _ db) as [[e|[|row rows]] db']; simpl.
  - eexists; split; [reflexivity|]. split; [reflexivity|]. simpl.
    split; [split; [done|]|split; [done|]].
    + intros (rows & [=] & _).
    + intros ??? [=].
  - eexists; split; [reflexivity|]. split; [reflexivity|]. simpl.
    split; [split; [|done]|split; [done|]].
    + intros _. exists []. split; [done|by left].
    + intros ??? [=].
  - destruct (member row "status") as [e|st] eqn:Hm.
    + eexists; split; [reflexivity|]. split; [reflexivity|]. simpl.
      split; [split; [done|]|split; [done|]].
      * intros (rows' & [= <-] & [[=]|(row' & rest & [= <- <-] & Hm')]).
        congruence.
      * intros row' rest st' [= <- <-] Hm'. congruence.
    + destruct (is_null st) eqn:Hn.
      * apply is_null_true in Hn as ->.
        eexists; split; [reflexivity|]. split; [reflexivity|]. simpl.
        split; [split; [|done]|split; [done|]].
        -- intros _. exists (row :: rows). split; [done|].
           right. by exists row, rows.
        -- intros row' rest st' [= <- <-] Hm' Hne. congruence.
      * apply is_null_false in Hn.
        eexists; split; [reflexivity|]. split; [reflexivity|]. simpl.
        split; [split; [done|]|split; [done|]].
        -- intros (rows' & [= <-] & [[=]|(row' & rest & [= <- <-] & Hm')]).
           congruence.
        -- intros row' rest st' [= <- <-] Hm' _.
           assert (st' = st) as -> by congruence. done.
Qed.

Lemma status_not_found_iff_no_row_or_null_witness :
  (let o := run (Pool0 := mock_pool (inr [JObj [("status", JStr "Delivered")]]))
              (CourierRoutes.get_status (request_for "7")) () in
   result o = inr (status_found (JStr "7") (JStr "Delivered")))
  ∧ (let o := run (Pool0 := mock_pool (inr [JObj [("status", JNull)]]))
                (CourierRoutes.get_status (request_for "7")) () in
     ∃ r, result o = inr r ∧ res_code r = 404).
Proof.
  split.
  - destruct (status_not_found_iff_no_row_or_null
                (Pool0 := mock_pool (inr [JObj [("status", JStr "Delivered")]]))
                (request_for "7") ()) as (r & Hr & _ & _ & _ & Hfound).
    destruct (Hfound (JObj [("status", JStr "Delivered")]) [] (JStr "Delivered")
                eq_refl eq_refl) as [-> _]; [discriminate|].
    exact Hr.
  - destruct (status_not_found_iff_no_row_or_null
                (Pool0 := mock_pool (inr [JObj [("status", JNull)]]))
                (request_for "7") ()) as (r & Hr & _ & [_ Hnull] & _).
    exists r. split; [exact Hr|]. apply Hnull.
    exists [JObj [("status", JNull)]]. split; [reflexivity|].
    right. by exists (JObj [("status", JNull)]), [].
Defined.

(** ** Delete *)

Section MySQLFacts.

Variable E : Engine.

Local Abbreviation tables_pool := (mysql_pool E).

(** The delete route on the tables, by cases on the rows the existence
    check finds. *)
Lemma delete_courier_on_tables (req : Request) (t : Tables) :
  run (Pool0 := tables_pool) (CourierRoutes.delete_courier req) t =
    let id := prop (req_params req) "id" in
    match q_courier_by_id E id t with
    | [] => mkOutcome (inr not_found) t [(SelectCourierById, [id])]
    | c :: _ =>
        mkOutcome
          (inr (delete_done id (JStr (bill_number c)) (js_courier_key c)))
          (delete_by_id E id t)
          [(SelectCourierById, [id]); (DeleteCourierById, [id])]
    end.
Proof.
  rewrite delete_courier_run. cbv zeta.
  unfold pool_exec, mysql_pool. simpl.
  destruct (q_courier_by_id _ _ t) as [|c cs]; reflexivity.
Qed.

(** The logs route on the tables. *)
Lemma get_logs_on_tables (req : Request) (t : Tables) :
  run (Pool0 := tables_pool) (CourierRoutes.get_logs req) t =
    let id := prop (req_params req) "id" in
    mkOutcome
      (inr (logs_found id (js_history <$> q_delivery_history E id t)
                          (js_audit <$> q_courier_audit E id t)))
      t [(SelectDeliveryHistory, [id]); (SelectCourierAudit, [id])].
Proof. rewrite get_logs_run. reflexivity. Qed.

End MySQLFacts.

(** C2: deleting an id that matches no row of [Couriers] is answered 404;
    the only statement issued is the existence check, so no delete
    statement, and the tables are what they were. *)
Theorem delete_unknown_id_leaves_database
    (E : Engine) (req : Request) (t : Tables) :
  let id := prop (req_params req) "id" in
  (∀ c, c ∈ Couriers t → sql_eq_key E id (courier_id c) = false) →
  let o := run (Pool0 := mysql_pool E)
             (CourierRoutes.delete_courier req) t in
  result o = inr not_found
  ∧ res_code not_found = 404
  ∧ field not_found "success" = JBool false
  ∧ calls o = [(SelectCourierById, [id])]
  ∧ (∀ args, (DeleteCourierById, args) ∉ calls o)
  ∧ final_db o = t.
Proof.
  intros id Hnone o. subst o.
  rewrite (delete_courier_on_tables E req t). cbv zeta.
  fold id.
  assert (q_courier_by_id E id t = []) as ->.
  { unfold q_courier_by_id. apply filter_none.
    intros c Hc. rewrite (Hnone c Hc). simpl. tauto. }
  simpl. repeat split.
  intros args [[=]|[]%elem_of_nil]%elem_of_cons.
Qed.

Lemma delete_unknown_id_leaves_database_witness :
  let o := run (Pool0 := example_pool)
             (CourierRoutes.delete_courier (request_for "99"))
             example_tables in
  result o = inr not_found
  ∧ calls o = [(SelectCourierById, [JStr "99"])]
  ∧ final_db o = example_tables.
Proof.
  destruct (delete_unknown_id_leaves_database example_engine
              (request_for "99") example_tables) as (Hr & _ & _ & Hc & _ & Hd).
  { intros c. unfold example_tables. simpl. rewrite !elem_of_cons, elem_of_nil.
    intros [->|[->|[->|[]]]]; reflexivity. }
  exact (conj Hr (conj Hc Hd)).
Defined.

(** C3, as the specification words it, fails: deleting order 7 with bill
    number BN-100 gives a success response with no [deleted] key at all. *)
Lemma delete_response_has_no_deleted_key :
  let o := run (Pool0 := example_pool)
             (CourierRoutes.delete_courier (request_for "7"))
             example_tables in
  ∃ r, result o = inr r
    ∧ res_code r = 200
    ∧ field r "deleted" = JUndefined
    ∧ ¬ delete_data_as_specified r 7 "BN-100".
Proof.
  eexists. split; [reflexivity|]. split; [reflexivity|].
  split; [reflexivity|]. unfold delete_data_as_specified. discriminate.
Qed.

(** C3 (amended): deleting an id whose existence check finds a row answers
    200 with [success = true], a message naming the id and the bill number,
    and the found row under the key [deleted_courier], the row being
    [{courier_id, bill_number}]. *)
Theorem delete_existing_id_reports_deleted_courier
    (E : Engine) (req : Request) (t : Tables) (c : Courier) (others : list Courier) :
  let id := prop (req_params req) "id" in
  q_courier_by_id E id t = c :: others →
  let o := run (Pool0 := mysql_pool E)
             (CourierRoutes.delete_courier req) t in
  ∃ r, result o = inr r
    ∧ res_code r = 200
    ∧ res_body r = JObj [
        ("success", JBool true);
        ("message",
         JStr ("Courier #" +:+ to_string id +:+ " (" +:+ bill_number c +:+
               ") deleted successfully"));
        ("deleted_courier",
         JObj [("courier_id", JNum (courier_id c));
               ("bill_number", JStr (bill_number c))])]
    ∧ calls o = [(SelectCourierById, [id]); (DeleteCourierById, [id])].
Proof.
  intros id Hfound o. subst o.
  rewrite (delete_courier_on_tables E req t). cbv zeta.
  fold id. rewrite Hfound. eexists. by repeat split.
Qed.

Lemma delete_existing_id_reports_deleted_courier_witness :
  let o := run (Pool0 := example_pool)
             (CourierRoutes.delete_courier (request_for "7"))
             example_tables in
  ∃ r, result o = inr r
    ∧ res_code r = 200
    ∧ res_body r = JObj [
        ("success", JBool true);
        ("message", JStr "Courier #7 (BN-100) deleted successfully");
        ("deleted_courier",
         JObj [("courier_id", JNum 7); ("bill_number", JStr "BN-100")])]
    ∧ calls o = [(SelectCourierById, [JStr "7"]);
                 (DeleteCourierById, [JStr "7"])].
Proof.
  exact (delete_existing_id_reports_deleted_courier example_engine (request_for "7") example_tables order7 []
           eq_refl).
Defined.

(** ** Read logs *)

Global Instance history_newest_first_total : Total history_newest_first.
Proof. intros h1 h2. unfold history_newest_first. lia. Qed.
Global Instance history_newest_first_trans : Transitive history_newest_first.
Proof. intros h1 h2 h3. unfold history_newest_first. lia. Qed.
Global Instance audit_newest_first_total : Total audit_newest_first.
Proof. intros a1 a2. unfold audit_newest_first. lia. Qed.
Global Instance audit_newest_first_trans : Transitive audit_newest_first.
Proof. intros a1 a2 a3. unfold audit_newest_first. lia. Qed.

(** The logs route never answers 404, whatever the database does. *)
Lemma get_logs_code {DB : Type} `{!Pool DB} (req : Request) (db : DB) :
  ∃ r, result (run (CourierRoutes.get_logs req) db) = inr r
       ∧ (res_code r = 200 ∨ res_code r = 500).
Proof.
  rewrite get_logs_run. cbv zeta.
  destruct (pool_exec _ _ db) as [[e|history] db1].
  - eexists. split; [reflexivity|]. by right.
  - destruct (pool_exec _ _ db1) as [[e|audit] db2];
      (eexists; split; [reflexivity|]); [by right|by left].
Qed.

(** C5: for every id the logs route issues two statements, the history
    query and the audit query, each with that id as its parameter; each
    returns the rows of its table that match the id, newest change first;
    the response is 200 with [success = true] and the two sequences, also
    when both are empty; and against any database at all the response is
    never 404. *)
Theorem logs_two_queries_always_success
    (E : Engine) (req : Request) (t : Tables) :
  let id := prop (req_params req) "id" in
  let o := run (Pool0 := mysql_pool E)
             (CourierRoutes.get_logs req) t in
  let history := q_delivery_history E id t in
  let audit := q_courier_audit E id t in
  calls o = [(SelectDeliveryHistory, [id]); (SelectCourierAudit, [id])]
  ∧ history ≡ₚ filter (λ h, sql_eq_key E id (history_courier_id h))
                      (Delivery_History t)
  ∧ StronglySorted history_newest_first history
  ∧ audit ≡ₚ filter (λ a, sql_eq_key E id (audit_courier_id a))
                    (Courier_Audit t)
  ∧ StronglySorted audit_newest_first audit
  ∧ result o = inr (logs_found id (js_history <$> history) (js_audit <$> audit))
  ∧ res_code (logs_found id (js_history <$> history) (js_audit <$> audit)) = 200
  ∧ field (logs_found id (js_history <$> history) (js_audit <$> audit))
          "success" = JBool true
  ∧ (Delivery_History t = [] ∧ Courier_Audit t = [] ∨
     history = [] ∧ audit = [] →
     result o = inr (logs_found id [] []))
  ∧ final_db o = t
  ∧ (∀ (DB : Type) (pool : Pool DB) (db : DB),
       ∃ r, result (run (CourierRoutes.get_logs req) db) = inr r
            ∧ res_code r ≠ 404).
Proof.
  intros id o history audit. subst o.
  rewrite (get_logs_on_tables E req t). cbv zeta.
  fold id history audit. simpl.
  split; [done|]. split; [apply merge_sort_Permutation|].
  split; [apply (StronglySorted_merge_sort _)|].
  split; [apply merge_sort_Permutation|].
  split; [apply (StronglySorted_merge_sort _)|].
  split; [done|]. split; [done|]. split; [done|]. split; [|split; [done|]].
  - intros [[Hh Ha]|[-> ->]]; [|done].
    subst history audit. unfold q_delivery_history, q_courier_audit.
    by rewrite Hh, Ha.
  - intros DB pool db. destruct (get_logs_code req db) as (r & Hr & Hcode).
    exists r. split; [exact Hr|]. destruct Hcode as [-> | ->]; done.
Qed.

Lemma logs_two_queries_always_success_witness :
  let o := run (Pool0 := example_pool)
             (CourierRoutes.get_logs (request_for "8")) example_tables in
  calls o = [(SelectDeliveryHistory, [JStr "8"]);
             (SelectCourierAudit, [JStr "8"])]
  ∧ result o = inr (logs_found (JStr "8") [] []).
Proof.
  destruct (logs_two_queries_always_success example_engine
              (request_for "8") example_tables)
    as (Hc & _ & _ & _ & _ & _ & _ & _ & Hempty & _).
  exact (conj Hc (Hempty (or_intror (conj eq_refl eq_refl)))).
Defined.

(** ** Reports *)

Global Instance by_name_total (E : Engine) : Total (by_name E).
Proof. intros u1 u2. unfold by_name. apply collate_total. Qed.
Global Instance by_name_trans (E : Engine) : Transitive (by_name E).
Proof. intros u1 u2 u3. unfold by_name. apply collate_trans. Qed.
Global Instance by_count_desc_total : Total by_count_desc.
Proof. intros r1 r2. unfold by_count_desc. lia. Qed.
Global Instance by_count_desc_trans : Transitive by_count_desc.
Proof. intros r1 r2 r3. unfold by_count_desc. lia. Qed.
Global Instance by_total_desc_total : Total by_total_desc.
Proof. intros r1 r2. unfold by_total_desc. lia. Qed.
Global Instance by_total_desc_trans : Transitive by_total_desc.
Proof. intros r1 r2 r3. unfold by_total_desc. lia. Qed.

Section ReportsOnTables.

Variable E : Engine.

Local Abbreviation tables_pool := (mysql_pool E).

Lemma get_nested_on_tables (req : Request) (t : Tables) :
  run (Pool0 := tables_pool) (ReportRoutes.get_nested req) t =
    mkOutcome (inr (nested_found (js_user <$> q_nested E t))) t
              [(SelectNested, [])].
Proof. reflexivity. Qed.

Lemma get_aggregate_on_tables (req : Request) (t : Tables) :
  run (Pool0 := tables_pool) (ReportRoutes.get_aggregate req) t =
    mkOutcome (inr (aggregate_found (js_status_row <$> q_aggregate t))) t
              [(SelectAggregate, [])].
Proof. reflexivity. Qed.

Lemma get_customer_activity_on_tables (req : Request) (t : Tables) :
  run (Pool0 := tables_pool) (ReportRoutes.get_customer_activity req) t =
    mkOutcome
      (inr (activity_found (js_activity_row <$> q_customer_activity t))) t
      [(SelectCustomerActivity, [])].
Proof. reflexivity. Qed.

End ReportsOnTables.

(** The IN test of the membership report says what the specification
    says. *)
Lemma delivered_customer_ids_spec (t : Tables) (u : User) :
  Some (user_id u) ∈ delivered_customer_ids t ↔ has_delivered_order t u.
Proof.
  unfold delivered_customer_ids, has_delivered_order.
  rewrite list_elem_of_fmap, Exists_exists. split.
  - intros (c & Hid & [Hst Hc]%list_elem_of_filter). by exists c.
  - intros (c & Hc & Hid & Hst). exists c. split; [done|].
    by apply list_elem_of_filter.
Qed.

(** C6: the membership report answers 200 with the rows of one query; the
    rows are exactly the rows of [Users] whose [user_id] is the
    [customer_id] of at least one order with status ["Delivered"], each as
    often as it is in [Users]; and they are in ascending order of name. *)
Theorem membership_report_is_delivered_customers_by_name
    (E : Engine) (req : Request) (t : Tables) :
  let o := run (Pool0 := mysql_pool E)
             (ReportRoutes.get_nested req) t in
  let rows := q_nested E t in
  result o = inr (nested_found (js_user <$> rows))
  ∧ field (nested_found (js_user <$> rows)) "data" = JArr (js_user <$> rows)
  ∧ calls o = [(SelectNested, [])]
  ∧ (∀ u, u ∈ rows ↔ u ∈ Users t ∧ has_delivered_order t u)
  ∧ rows ≡ₚ filter (has_delivered_order t) (Users t)
  ∧ StronglySorted (by_name E) rows
  ∧ StronglySorted (λ a b, collate E a b = true) (name <$> rows).
Proof.
  intros o rows. subst o rows.
  rewrite (get_nested_on_tables E req t). simpl.
  assert (Hperm : q_nested E t ≡ₚ filter (has_delivered_order t) (Users t)).
  { unfold q_nested. rewrite merge_sort_Permutation.
    erewrite list_filter_iff; [reflexivity|].
    intros u. apply delivered_customer_ids_spec. }
  assert (Hsorted : StronglySorted (by_name E) (q_nested E t)).
  { apply (StronglySorted_merge_sort _). }
  split; [done|]. split; [done|]. split; [done|]. split; [|split; [done|]].
  - intros u. rewrite Hperm, list_elem_of_filter. tauto.
  - split; [done|].
    eapply StronglySorted_fmap; [|exact Hsorted].
    by intros u1 u2.
Qed.

(** *** Grouping *)

(** Rows counted group by group, over keys that are distinct and cover the
    rows, are all the rows. *)
Lemma group_sizes_sum {A K : Type} `{!EqDecision K} (f : A → K)
    (ks : list K) (l : list A) :
  NoDup ks → (∀ x, x ∈ l → f x ∈ ks) →
  sum_list ((λ k, length (filter (λ x, f x = k) l)) <$> ks) = length l.
Proof.
  intros Hnd. revert l. induction Hnd as [|k ks Hk Hnd IH]; intros l Hcover.
  - destruct l as [|x l]; [done|].
    exfalso. apply (not_elem_of_nil (f x)), Hcover. constructor.
  - csimpl.
    pose proof (filter_app_complement (λ x, f x = k) l) as Hsplit.
    apply Permutation_length in Hsplit. rewrite length_app in Hsplit.
    rewrite <- Hsplit. f_equal.
    rewrite <- (IH (filter (λ x, f x ≠ k) l)).
    + f_equal. apply list_fmap_ext.
      intros i k' Hk'%list_elem_of_lookup_2. f_equal.
      rewrite list_filter_filter. apply list_filter_iff.
      intros x. split; [|tauto]. intros ->. split; [done|].
      intros ->. done.
    + intros x [Hne Hx]%list_elem_of_filter.
      specialize (Hcover x Hx). apply elem_of_cons in Hcover as [?|?]; done.
Qed.

Lemma status_row_status (cs : list Courier) (s : option string) :
  agg_status (status_row cs s) = s.
Proof. reflexivity. Qed.

Lemma q_aggregate_statuses (t : Tables) :
  agg_status <$> q_aggregate t ≡ₚ remove_dups (status <$> Couriers t).
Proof.
  unfold q_aggregate. rewrite merge_sort_Permutation.
  rewrite <- list_fmap_compose.
  rewrite (list_fmap_ext _ id) by done. by rewrite list_fmap_id.
Qed.

Lemma q_aggregate_counts (t : Tables) :
  agg_count <$> q_aggregate t ≡ₚ
  (λ s, length (orders_with_status t s)) <$> remove_dups (status <$> Couriers t).
Proof.
  unfold q_aggregate. rewrite merge_sort_Permutation.
  by rewrite <- list_fmap_compose.
Qed.

(** C7: the aggregate report answers 200 with the rows of one query; the
    statuses of its rows are the distinct statuses of [Couriers], each
    exactly once; every row counts the orders with its status; the rows are
    in descending order of count; and the counts add up to the number of
    rows of [Couriers]. *)
Theorem aggregate_report_partitions_orders
    (E : Engine) (req : Request) (t : Tables) :
  let o := run (Pool0 := mysql_pool E)
             (ReportRoutes.get_aggregate req) t in
  let rows := q_aggregate t in
  result o = inr (aggregate_found (js_status_row <$> rows))
  ∧ field (aggregate_found (js_status_row <$> rows)) "data"
    = JArr (js_status_row <$> rows)
  ∧ calls o = [(SelectAggregate, [])]
  ∧ final_db o = t
  ∧ NoDup (agg_status <$> rows)
  ∧ (∀ s, s ∈ agg_status <$> rows ↔ ∃ c, c ∈ Couriers t ∧ status c = s)
  ∧ (∀ r, r ∈ rows →
       agg_count r = length (orders_with_status t (agg_status r))
       ∧ (0 < agg_count r)%nat)
  ∧ StronglySorted by_count_desc rows
  ∧ sum_list (agg_count <$> rows) = length (Couriers t).
Proof.
  intros o rows. subst o rows.
  rewrite (get_aggregate_on_tables E req t). simpl.
  split; [done|]. split; [done|]. split; [done|]. split; [done|].
  split; [|split; [|split; [|split]]].
  - rewrite q_aggregate_statuses. apply NoDup_remove_dups.
  - intros s. rewrite q_aggregate_statuses, elem_of_remove_dups.
    rewrite list_elem_of_fmap.
    split; [intros (c & -> & Hc)|intros (c & Hc & <-)]; by exists c.
  - intros r. unfold q_aggregate. rewrite merge_sort_Permutation.
    intros (s & -> & Hs)%list_elem_of_fmap. simpl. split; [done|].
    apply elem_of_remove_dups, list_elem_of_fmap in Hs as (c & -> & Hc).
    unfold status_group.
    assert (Hin : c ∈ filter (λ c', status c' = status c) (Couriers t))
      by by apply list_elem_of_filter.
    destruct (filter _ (Couriers t)); [by apply not_elem_of_nil in Hin|simpl; lia].
  - apply (StronglySorted_merge_sort _).
  - rewrite q_aggregate_counts. unfold orders_with_status.
    apply group_sizes_sum; [apply NoDup_remove_dups|].
    intros c Hc. apply elem_of_remove_dups. by apply list_elem_of_fmap_2.
Qed.

(** *** The join and its groups *)

Lemma join_rows_user (cs : list Courier) (u : User) (j : User * option Courier) :
  j ∈ join_rows cs u → j.1 = u.
Proof.
  unfold join_rows. destruct (filter _ cs) as [|c m].
  - by intros ->%list_elem_of_singleton.
  - by intros (c' & -> & _)%list_elem_of_fmap.
Qed.

Lemma join_rows_orders (cs : list Courier) (u : User) :
  omap (λ j : User * option Courier, j.2) (join_rows cs u)
  = filter (λ c, customer_id c = Some (user_id u)) cs.
Proof.
  unfold join_rows. destruct (filter _ cs) as [|c m]; [done|].
  generalize (c :: m). intros l. induction l as [|c' l IH]; [done|].
  csimpl. by rewrite IH.
Qed.

Lemma left_join_cons (u : User) (us : list User) (cs : list Courier) :
  left_join (u :: us) cs = join_rows cs u ++ left_join us cs.
Proof. reflexivity. Qed.

Lemma left_join_user (us : list User) (cs : list Courier)
    (j : User * option Courier) :
  j ∈ left_join us cs ↔ ∃ u, u ∈ us ∧ j ∈ join_rows cs u.
Proof.
  unfold left_join. rewrite list_elem_of_bind.
  split; intros (u & ? & ?); by exists u.
Qed.

Lemma join_rows_nonempty (cs : list Courier) (u : User) :
  ∃ j, j ∈ join_rows cs u.
Proof.
  unfold join_rows. destruct (filter _ cs) as [|c m].
  - exists (u, None). constructor.
  - exists (u, Some c). constructor.
Qed.

(** With [user_id] a key of [Users], the group of a user's key is the
    user's own rows of the join. *)
Lemma activity_group_of_user (us : list User) (cs : list Courier) (u : User) :
  NoDup (user_id <$> us) → u ∈ us →
  activity_group (user_key u) (left_join us cs) = join_rows cs u.
Proof.
  unfold activity_group.
  induction us as [|u' us IH]; intros Hnd Hu; [by apply not_elem_of_nil in Hu|].
  rewrite fmap_cons in Hnd. apply NoDup_cons in Hnd as [Hfresh Hnd].
  rewrite left_join_cons, filter_app.
  destruct (decide (user_id u' = user_id u)) as [Hid|Hid].
  - assert (u = u') as <-.
    { apply elem_of_cons in Hu as [?|Hu]; [done|].
      destruct Hfresh. rewrite Hid. by apply list_elem_of_fmap_2. }
    rewrite (filter_none _ (left_join us cs)).
    + rewrite app_nil_r. apply filter_all.
      intros j Hj. unfold activity_key. by rewrite (join_rows_user cs u j Hj).
    + intros j (u2 & Hu2 & Hj)%left_join_user Hkey.
      unfold activity_key, user_key in Hkey.
      rewrite (join_rows_user cs u2 j Hj) in Hkey.
      destruct Hfresh. injection Hkey as <- _ _.
      by apply list_elem_of_fmap_2.
  - apply elem_of_cons in Hu as [->|Hu]; [done|].
    rewrite (filter_none _ (join_rows cs u')).
    + by apply IH.
    + intros j Hj Hkey. unfold activity_key, user_key in Hkey.
      rewrite (join_rows_user cs u' j Hj) in Hkey. by injection Hkey.
Qed.

(** The keys of the join are the keys of the users. *)
Lemma left_join_keys (us : list User) (cs : list Courier) :
  NoDup (user_id <$> us) →
  remove_dups (activity_key <$> left_join us cs) ≡ₚ user_key <$> us.
Proof.
  intros Hnd. apply NoDup_Permutation.
  - apply NoDup_remove_dups.
  - apply (NoDup_fmap_1 fst), (NoDup_fmap_1 fst).
    rewrite <- !list_fmap_compose. exact Hnd.
  - intros k. rewrite elem_of_remove_dups, !list_elem_of_fmap. split.
    + intros (j & -> & (u & Hu & Hj)%left_join_user).
      exists u. split; [|done].
      unfold activity_key, user_key. by rewrite (join_rows_user cs u j Hj).
    + intros (u & -> & Hu). destruct (join_rows_nonempty cs u) as [j Hj].
      exists j. split.
      * unfold activity_key, user_key. by rewrite (join_rows_user cs u j Hj).
      * apply left_join_user. by exists u.
Qed.

Lemma activity_row_of_user (t : Tables) (u : User) :
  NoDup (user_id <$> Users t) → u ∈ Users t →
  activity_row (left_join (Users t) (Couriers t)) (user_key u) = activity_of t u.
Proof.
  intros Hnd Hu. unfold activity_row, activity_of.
  rewrite (activity_group_of_user _ _ u Hnd Hu). simpl.
  assert (Hcount : ∀ l : list (User * option Courier),
            omap (λ j, courier_id <$> j.2) l = courier_id <$> omap snd l).
  { induction l as [|[u' [c|]] l IHl]; csimpl; by rewrite ?IHl. }
  assert (Hstat : ∀ l : list (User * option Courier),
            omap (λ j, j.2 ≫= status) l = omap status (omap snd l)).
  { induction l as [|[u' [c|]] l IHl]; csimpl; [done| |done].
    destruct (status c); csimpl; by rewrite IHl. }
  rewrite Hcount, Hstat, length_fmap.
  change (omap snd (join_rows (Couriers t) u))
    with (omap (λ j : User * option Courier, j.2) (join_rows (Couriers t) u)).
  by rewrite join_rows_orders.
Qed.

(** Grouping keeps every user, with a count of zero for a user without
    orders. *)
Lemma activity_grouped_all_users (t : Tables) :
  NoDup (user_id <$> Users t) →
  activity_grouped t ≡ₚ activity_of t <$> Users t.
Proof.
  intros Hnd. unfold activity_grouped.
  rewrite (left_join_keys _ _ Hnd), <- list_fmap_compose.
  erewrite list_fmap_ext; [reflexivity|].
  intros i u Hu%list_elem_of_lookup_2. simpl.
  by apply activity_row_of_user.
Qed.

Lemma orders_of_has_order (t : Tables) (uid : Z) :
  (0 < length (orders_of t uid))%nat ↔ has_order t uid.
Proof.
  unfold orders_of, has_order. rewrite Exists_exists. split.
  - destruct (filter _ (Couriers t)) as [|c m] eqn:Hm; simpl; [lia|].
    intros _.
    assert (Hc : c ∈ filter (λ c, customer_id c = Some uid) (Couriers t))
      by (rewrite Hm; constructor).
    apply list_elem_of_filter in Hc as [??]. by exists c.
  - intros (c & Hc & Hid).
    assert (Hin : c ∈ filter (λ c, customer_id c = Some uid) (Couriers t))
      by by apply list_elem_of_filter.
    destruct (filter _ (Couriers t)); [by apply not_elem_of_nil in Hin|simpl; lia].
Qed.

Lemma filter_fmap {A B} (f : A → B) (P : B → Prop) `{!∀ y, Decision (P y)}
    (l : list A) :
  filter P (f <$> l) = f <$> filter (λ x, P (f x)) l.
Proof.
  induction l as [|x l IH]; [done|].
  csimpl. rewrite !filter_cons. destruct (decide (P (f x))); csimpl; by rewrite IH.
Qed.

Lemma NoDup_fmap_filter {A B} (f : A → B) (P : A → Prop)
    `{!∀ x, Decision (P x)} (l : list A) :
  NoDup (f <$> l) → NoDup (f <$> filter P l).
Proof.
  induction l as [|x l IH]; [done|].
  csimpl. intros [Hx Hnd]%NoDup_cons. rewrite filter_cons.
  destruct (decide (P x)); csimpl; [|by apply IH].
  apply NoDup_cons. split; [|by apply IH].
  intros (y & Hy & [_ Hin]%list_elem_of_filter)%list_elem_of_fmap.
  apply Hx. rewrite Hy. by apply list_elem_of_fmap_2.
Qed.

Lemma join_rows_order (cs : list Courier) (u u' : User) (c : Courier) :
  (u', Some c) ∈ join_rows cs u → c ∈ cs ∧ customer_id c = Some (user_id u).
Proof.
  unfold join_rows.
  destruct (filter _ cs) as [|c0 m] eqn:Hm.
  - by intros [=]%list_elem_of_singleton.
  - intros (c' & [= _ ->] & Hc')%list_elem_of_fmap.
    rewrite <- Hm in Hc'. apply list_elem_of_filter in Hc' as [??]. done.
Qed.

(** A group that counts an order belongs to a user who has one. *)
Lemma activity_row_positive (t : Tables) (k : Z * string * string) :
  (0 < total_orders (activity_row (left_join (Users t) (Couriers t)) k))%nat →
  ∃ u, u ∈ Users t ∧ user_key u = k ∧ has_order t (user_id u).
Proof.
  unfold activity_row. simpl.
  destruct (omap _ (activity_group k _)) as [|n ns] eqn:Hn; simpl; [lia|].
  intros _.
  assert (Hin : n ∈ omap (λ j : User * option Courier, courier_id <$> j.2)
                  (activity_group k (left_join (Users t) (Couriers t))))
    by (rewrite Hn; constructor).
  apply list_elem_of_omap in Hin as ([u' [c|]] & Hj & Hsome); [|done].
  apply list_elem_of_filter in Hj as [Hk Hj].
  apply left_join_user in Hj as (u & Hu & Hj).
  pose proof (join_rows_user _ _ _ Hj) as Hu'. simpl in Hu'. subst u'.
  apply join_rows_order in Hj as [Hc Hid].
  exists u. split; [done|]. split; [done|].
  unfold has_order. apply Exists_exists. by exists c.
Qed.

(** C8: the customer-activity report answers 200 with the rows of one
    query.  The rows are the grouped rows that pass the HAVING filter, in
    descending order of their count; every row has a positive count and is
    the row of a user who has an order.  With [user_id] the key of [Users],
    grouping keeps every user (a user without orders with a count of zero),
    so the filter comes after the grouping, and the rows are exactly one row
    for each user with at least one order, none for a user with none, each
    with the number of that user's orders. *)
Theorem customer_activity_excludes_zero_order_users
    (E : Engine) (req : Request) (t : Tables) :
  let o := run (Pool0 := mysql_pool E)
             (ReportRoutes.get_customer_activity req) t in
  let rows := q_customer_activity t in
  result o = inr (activity_found (js_activity_row <$> rows))
  ∧ field (activity_found (js_activity_row <$> rows)) "data"
    = JArr (js_activity_row <$> rows)
  ∧ calls o = [(SelectCustomerActivity, [])]
  ∧ rows ≡ₚ filter (λ r, (0 < total_orders r)%nat) (activity_grouped t)
  ∧ StronglySorted by_total_desc rows
  ∧ (∀ r, r ∈ rows →
       (0 < total_orders r)%nat
       ∧ ∃ u, u ∈ Users t
              ∧ user_key u
                = (activity_user_id r, customer_name r, activity_email r)
              ∧ has_order t (user_id u))
  ∧ (NoDup (user_id <$> Users t) →
     activity_grouped t ≡ₚ activity_of t <$> Users t
     ∧ rows ≡ₚ activity_of t
                 <$> filter (λ u, has_order t (user_id u)) (Users t)
     ∧ (∀ r, r ∈ rows →
          total_orders r = length (orders_of t (activity_user_id r)))
     ∧ (∀ u, u ∈ Users t →
          (∃ r, r ∈ rows ∧ activity_user_id r = user_id u)
          ↔ has_order t (user_id u))
     ∧ NoDup (activity_user_id <$> rows)).
Proof.
  intros o rows. subst o rows.
  rewrite (get_customer_activity_on_tables E req t). simpl.
  assert (Hhaving : q_customer_activity t
            ≡ₚ filter (λ r, (0 < total_orders r)%nat) (activity_grouped t)).
  { unfold q_customer_activity. by rewrite merge_sort_Permutation. }
  split; [done|]. split; [done|]. split; [done|]. split; [done|].
  split; [apply (StronglySorted_merge_sort _)|]. split.
  - intros r. rewrite Hhaving.
    intros [Hpos (k & -> & _)%list_elem_of_fmap]%list_elem_of_filter.
    split; [done|].
    destruct (activity_row_positive t k Hpos) as (u & Hu & <- & Hord).
    by exists u.
  - intros Hkey.
    pose proof (activity_grouped_all_users t Hkey) as Hgrouped.
    assert (Husers : q_customer_activity t
              ≡ₚ activity_of t <$>
                   filter (λ u, has_order t (user_id u)) (Users t)).
    { rewrite Hhaving, Hgrouped, filter_fmap.
      erewrite list_filter_iff; [reflexivity|].
      intros u. simpl. apply orders_of_has_order. }
    split; [done|]. split; [done|]. split; [|split].
    + intros r. rewrite Husers. by intros (u & -> & _)%list_elem_of_fmap.
    + intros u Hu. split.
      * intros (r & Hr & Hid). rewrite Husers in Hr.
        apply list_elem_of_fmap in Hr
          as (u' & -> & [Hord _]%list_elem_of_filter).
        simpl in Hid. by rewrite <- Hid.
      * intros Hord. exists (activity_of t u). split; [|done].
        rewrite Husers. apply list_elem_of_fmap_2.
        by apply list_elem_of_filter.
    + rewrite Husers, <- list_fmap_compose.
      by apply (NoDup_fmap_filter user_id).
Qed.

Lemma customer_activity_excludes_zero_order_users_witness :
  let rows := q_customer_activity example_tables in
  NoDup (user_id <$> Users example_tables)
  ∧ rows ≡ₚ activity_of example_tables <$> [alice; bob]
  ∧ NoDup (activity_user_id <$> rows).
Proof.
  assert (Hkey : NoDup (user_id <$> Users example_tables)).
  { simpl. repeat constructor; rewrite ?elem_of_cons, ?elem_of_nil; lia. }
  destruct (customer_activity_excludes_zero_order_users example_engine
              (mkRequest [] JUndefined) example_tables)
    as (_ & _ & _ & _ & _ & _ & Hgiven).
  destruct (Hgiven Hkey) as (_ & Hrows & _ & _ & Hnd).
  exact (conj Hkey (conj Hrows Hnd)).
Defined.

(** ** The reports on the example tables *)

Example nested_example :
  name <$> q_nested example_engine example_tables = ["Bob"].
Proof. reflexivity. Qed.

Example aggregate_example :
  (λ r, (agg_status r, agg_count r)) <$> q_aggregate example_tables
  = [(Some "Pending", 2%nat); (Some "Delivered", 1%nat)].
Proof. reflexivity. Qed.

Example customer_activity_example :
  (λ r, (customer_name r, total_orders r, order_statuses r))
    <$> q_customer_activity example_tables
  = [("Bob", 2%nat, Some "Delivered,Pending");
     ("Alice", 1%nat, Some "Pending")].
Proof. reflexivity. Qed.

(** Carol has no order: grouping keeps her with a count of zero, and the
    HAVING clause is what drops her. *)
Example customer_activity_grouped_example :
  (λ r, (customer_name r, total_orders r)) <$> activity_grouped example_tables
  = [("Carol", 0%nat); ("Alice", 1%nat); ("Bob", 2%nat)].
Proof. reflexivity. Qed.

Example delete_then_logs_example :
  let o := run (Pool0 := example_pool)
             (CourierRoutes.delete_courier (request_for "7")) example_tables in
  result (run (Pool0 := example_pool)
            (CourierRoutes.get_logs (request_for "7")) (final_db o))
  = inr (logs_found (JStr "7") [] []).
Proof. reflexivity. Qed.

Example to_string_example :
  to_string (JArr [JNum 12; JNull; JStr "a"; JNum (-3)]) = "12,,a,-3".
Proof. reflexivity. Qed.

(** * Further properties of the routes *)

Section AnyPoolReports.

Context {DB : Type} `{!Pool DB}.

Lemma get_nested_run (req : Request) (db : DB) :
  run (ReportRoutes.get_nested req) db =
    let '(ans, db') := pool_exec SelectNested [] db in
    mkOutcome
      (inr match ans with
           | inl e => nested_failed e
           | inr rows => nested_found rows
           end)
      db' [(SelectNested, [])].
Proof.
  unfold ReportRoutes.get_nested. simpl.
  destruct (pool_exec _ _ db) as [[e|rows] db']; reflexivity.
Qed.

Lemma get_aggregate_run (req : Request) (db : DB) :
  run (ReportRoutes.get_aggregate req) db =
    let '(ans, db') := pool_exec SelectAggregate [] db in
    mkOutcome
      (inr match ans with
           | inl e => aggregate_failed e
           | inr rows => aggregate_found rows
           end)
      db' [(SelectAggregate, [])].
Proof.
  unfold ReportRoutes.get_aggregate. simpl.
  destruct (pool_exec _ _ db) as [[e|rows] db']; reflexivity.
Qed.

Lemma get_customer_activity_run (req : Request) (db : DB) :
  run (ReportRoutes.get_customer_activity req) db =
    let '(ans, db') := pool_exec SelectCustomerActivity [] db in
    mkOutcome
      (inr match ans with
           | inl e => activity_failed e
           | inr rows => activity_found rows
           end)
      db' [(SelectCustomerActivity, [])].
Proof.
  unfold ReportRoutes.get_customer_activity. simpl.
  destruct (pool_exec _ _ db) as [[e|rows] db']; reflexivity.
Qed.

End AnyPoolReports.

Lemma truthy_false_iff (v : JsVal) : truthy v = false ↔ v ∈ js_falsy.
Proof.
  unfold js_falsy. rewrite !elem_of_cons, elem_of_nil. split.
  - destruct v as [| |[]|n|s| |]; simpl; try discriminate; auto.
    + destruct (Z.eqb_spec n 0) as [->|]; [auto 10|discriminate].
    + destruct s; [auto 10|discriminate].
  - intros [->|[->|[->|[->|[->|[]]]]]]; reflexivity.
Qed.

Ltac responded :=
  eexists; split; [reflexivity|];
  unfold well_formed, field; simpl; auto 10.

(** X1: whatever the database does, every route answers: no error escapes
    the [try]/[catch], the status code is one of 200, 201, 400, 404 and 500,
    and the [success] flag is [true] exactly on 200 and 201. *)
Theorem routes_always_respond {DB : Type} `{!Pool DB} :
  Forall (λ route, ∀ (req : Request) (db : DB),
            ∃ r, result (run (route req) db) = inr r ∧ well_formed r)
         routes.
Proof.
  unfold routes. repeat apply Forall_cons_2; [..|apply Forall_nil_2];
    intros req db.
  - destruct (body_cases req add_required)
      as [Hnull|[(Hbody & f & Hf & Hv)|[_ Hall]]].
    + rewrite (post_add_unreadable req db Hnull). responded.
    + rewrite (post_add_falsy req db f Hbody Hf Hv). responded.
    + rewrite (post_add_truthy req db Hall). cbv zeta.
      destruct (pool_exec _ _ db) as [[e|rows] db']; responded.
  - destruct (body_cases req update_required)
      as [Hnull|[(Hbody & f & Hf & Hv)|[_ Hall]]].
    + rewrite (put_update_status_unreadable req db Hnull). responded.
    + rewrite (put_update_status_falsy req db f Hbody Hf Hv). responded.
    + rewrite (put_update_status_truthy req db Hall). cbv zeta.
      destruct (pool_exec _ _ db) as [[e|rows] db']; responded.
  - rewrite get_status_run. cbv zeta.
    destruct (pool_exec _ _ db) as [[e|[|row rows]] db']; [responded..|].
    destruct (member row "status") as [e|st]; [responded|].
    destruct (is_null st); responded.
  - rewrite get_logs_run. cbv zeta.
    destruct (pool_exec _ _ db) as [[e|history] db1]; [responded|].
    destruct (pool_exec _ _ db1) as [[e|audit] db2]; responded.
  - rewrite delete_courier_run. cbv zeta.
    destruct (pool_exec _ _ db) as [[e|[|row rows]] db1]; [responded..|].
    destruct (pool_exec _ _ db1) as [[e|ok] db2]; [responded|].
    destruct (member row "bill_number") as [e|bill]; responded.
  - rewrite get_nested_run.
    destruct (pool_exec _ _ db) as [[e|rows] db']; responded.
  - rewrite get_aggregate_run.
    destruct (pool_exec _ _ db) as [[e|rows] db']; responded.
  - rewrite get_customer_activity_run.
    destruct (pool_exec _ _ db) as [[e|rows] db']; responded.
Qed.

Lemma some_falsy_iff (v : JsVal) (fs : list string) :
  (∃ f, f ∈ fs ∧ read v f ∈ js_falsy)
  ↔ (∃ f, f ∈ fs ∧ truthy (read v f) = false).
Proof.
  split; intros (f & Hf & Hv); exists f; (split; [done|]);
    by apply truthy_false_iff.
Qed.

(** X2: creating an order is refused at validation exactly when the body
    was parsed and one of the five fields is [undefined] (absent), [null],
    [false], [0] or the empty string; every other value, of any type, goes
    to the routine.  A statement is sent exactly when all five fields are
    truthy, and then it is the one call of the routine; a request without a
    parsed body fails in the destructuring and is answered 500, like a
    refusal without a statement. *)
Theorem create_refuses_exactly_falsy {DB : Type} `{!Pool DB}
    (req : Request) (db : DB) :
  let o := run (CourierRoutes.post_add req) db in
  let body := req_body req in
  ((nullish body = false
    ∧ ∃ f, f ∈ add_required ∧ read body f ∈ js_falsy)
   ↔ result o = inr add_rejected)
  ∧ (nullish body = true →
     result o
     = inr (add_failed (cannot_destructure "req.body" "customer_id" body)))
  ∧ (nullish body = true ↔
     calls o = [] ∧ ∃ r, result o = inr r ∧ res_code r = 500)
  ∧ (calls o = [] ↔
     nullish body = true ∨ ∃ f, f ∈ add_required ∧ read body f ∈ js_falsy)
  ∧ ((∀ f, f ∈ add_required → read body f ∉ js_falsy) ↔
     calls o = [(CallAddCourierOrder, read body <$> add_required)]).
Proof.
  intros o body. subst o body. rewrite some_falsy_iff.
  assert (Htruthy : (∀ f, f ∈ add_required → read (req_body req) f ∉ js_falsy)
            ↔ ∀ f, f ∈ add_required → truthy (read (req_body req) f) = true).
  { split; intros Hall f Hf; specialize (Hall f Hf).
    - destruct (truthy _) eqn:Hv; [done|]. by apply truthy_false_iff in Hv.
    - intros Hv%truthy_false_iff. congruence. }
  rewrite Htruthy. clear Htruthy.
  destruct (body_cases req add_required)
    as [Hnull|[(Hbody & f & Hf & Hv)|[Hbody Hall]]].
  - rewrite (post_add_unreadable req db Hnull). simpl.
    split; [|split; [|split; [|split]]].
    + split; [intros [? _]; congruence|done].
    + done.
    + split; [|done]. intros _. split; [done|]. by eexists.
    + split; [by left|done].
    + split; [|done]. intros Hall.
      specialize (Hall "customer_id"). rewrite read_nullish in Hall by done.
      discriminate Hall. repeat constructor.
  - rewrite (post_add_falsy req db f Hbody Hf Hv). simpl.
    split; [|split; [|split; [|split]]].
    + split; [done|]. intros _. split; [done|]. by exists f.
    + congruence.
    + split; [congruence|]. by intros (_ & r & [= <-] & ?).
    + split; [|done]. intros _. right. by exists f.
    + split; [|done]. intros Hall. rewrite (Hall f Hf) in Hv. done.
  - rewrite (post_add_truthy req db Hall). cbv zeta.
    assert (Hnone : ¬ ∃ f, f ∈ add_required
                       ∧ truthy (read (req_body req) f) = false).
    { intros (f & Hf & Hv). rewrite (Hall f Hf) in Hv. done. }
    destruct (pool_exec _ _ db) as [[e|rows] db']; simpl.
    + split; [|split; [|split; [|split]]].
      * split; [by intros [_ ?]|done].
      * congruence.
      * split; [congruence|]. by intros [? _].
      * split; [done|]. intros [?|?]; [congruence|done].
      * done.
    + split; [|split; [|split; [|split]]].
      * split; [by intros [_ ?]|done].
      * congruence.
      * split; [congruence|]. by intros [? _].
      * split; [done|]. intros [?|?]; [congruence|done].
      * done.
Qed.

(** X3: a status update is refused at validation exactly when the body was
    parsed and [new_status] or [changed_by_admin_email] is [undefined]
    (absent), [null], [false], [0] or the empty string; the [id] of the
    path is not looked at.  A statement is sent exactly when both fields are
    truthy, and then it is the one call of the routine; a request without a
    parsed body fails in the destructuring and is answered 500 without a
    statement. *)
Theorem update_refuses_exactly_falsy {DB : Type} `{!Pool DB}
    (req : Request) (db : DB) :
  let o := run (CourierRoutes.put_update_status req) db in
  let body := req_body req in
  ((nullish body = false
    ∧ ∃ f, f ∈ update_required ∧ read body f ∈ js_falsy)
   ↔ result o = inr update_rejected)
  ∧ (nullish body = true →
     result o
     = inr (update_failed (cannot_destructure "req.body" "new_status" body)))
  ∧ (nullish body = true ↔
     calls o = [] ∧ ∃ r, result o = inr r ∧ res_code r = 500)
  ∧ (calls o = [] ↔
     nullish body = true
     ∨ ∃ f, f ∈ update_required ∧ read body f ∈ js_falsy)
  ∧ ((∀ f, f ∈ update_required → read body f ∉ js_falsy) ↔
     calls o = [(CallUpdateCourierStatus,
                 prop (req_params req) "id"
                 :: (read body <$> update_required))]).
Proof.
  intros o body. subst o body. rewrite some_falsy_iff.
  assert (Htruthy :
            (∀ f, f ∈ update_required → read (req_body req) f ∉ js_falsy)
            ↔ ∀ f, f ∈ update_required
                   → truthy (read (req_body req) f) = true).
  { split; intros Hall f Hf; specialize (Hall f Hf).
    - destruct (truthy _) eqn:Hv; [done|]. by apply truthy_false_iff in Hv.
    - intros Hv%truthy_false_iff. congruence. }
  rewrite Htruthy. clear Htruthy.
  destruct (body_cases req update_required)
    as [Hnull|[(Hbody & f & Hf & Hv)|[Hbody Hall]]].
  - rewrite (put_update_status_unreadable req db Hnull). simpl.
    split; [|split; [|split; [|split]]].
    + split; [intros [? _]; congruence|done].
    + done.
    + split; [|done]. intros _. split; [done|]. by eexists.
    + split; [by left|done].
    + split; [|done]. intros Hall.
      specialize (Hall "new_status"). rewrite read_nullish in Hall by done.
      discriminate Hall. repeat constructor.
  - rewrite (put_update_status_falsy req db f Hbody Hf Hv). simpl.
    split; [|split; [|split; [|split]]].
    + split; [done|]. intros _. split; [done|]. by exists f.
    + congruence.
    + split; [congruence|]. by intros (_ & r & [= <-] & ?).
    + split; [|done]. intros _. right. by exists f.
    + split; [|done]. intros Hall. rewrite (Hall f Hf) in Hv. done.
  - rewrite (put_update_status_truthy req db Hall). cbv zeta.
    assert (Hnone : ¬ ∃ f, f ∈ update_required
                       ∧ truthy (read (req_body req) f) = false).
    { intros (f & Hf & Hv). rewrite (Hall f Hf) in Hv. done. }
    destruct (pool_exec _ _ db) as [[e|rows] db']; simpl.
    + split; [|split; [|split; [|split]]].
      * split; [by intros [_ ?]|done].
      * congruence.
      * split; [congruence|]. by intros [? _].
      * split; [done|]. intros [?|?]; [congruence|done].
      * done.
    + split; [|split; [|split; [|split]]].
      * split; [by intros [_ ?]|done].
      * congruence.
      * split; [congruence|]. by intros [? _].
      * split; [done|]. intros [?|?]; [congruence|done].
      * done.
Qed.

Ltac rejected_by e Hdown :=
  match goal with
  | |- context [pool_exec ?q ?args ?db] =>
      let ans := fresh "ans" in
      let db' := fresh "db'" in
      specialize (Hdown q args);
      destruct (pool_exec q args db) as [ans db'];
      simpl in Hdown; subst ans
  end.

(** X4: when the database rejects whatever it is sent with an error [e],
    the six routes without validation always answer 500 with
    [success = false] and the message of [e], unchanged, under [error],
    after exactly one statement: nothing is retried.  Create and update do
    the same when their fields are truthy; otherwise they send no statement
    and answer 400 when the body was parsed and a field is falsy, and 500
    with the error of the destructuring when there is no parsed body. *)
Theorem database_down_is_500_verbatim {DB : Type} `{!Pool DB}
    (db : DB) (e : JsError) :
  (∀ q args, (pool_exec q args db).1 = inl e) →
  Forall (λ '(route, q, failed),
            ∀ req : Request,
              let o := run (route req) db in
              result o = inr (failed e)
              ∧ (∃ args, calls o = [(q, args)])
              ∧ res_code (failed e) = 500
              ∧ field (failed e) "success" = JBool false
              ∧ field (failed e) "error" = JStr (message e))
         unvalidated_routes
  ∧ (∀ req : Request,
       let o := run (CourierRoutes.post_add req) db in
       let body := req_body req in
       ((∀ f, f ∈ add_required → truthy (read body f) = true) →
          result o = inr (add_failed e)
          ∧ calls o = [(CallAddCourierOrder, read body <$> add_required)])
       ∧ (nullish body = false →
          (∃ f, f ∈ add_required ∧ truthy (read body f) = false) →
          result o = inr add_rejected ∧ calls o = [])
       ∧ (nullish body = true →
          result o
          = inr (add_failed (cannot_destructure "req.body" "customer_id" body))
          ∧ calls o = []))
  ∧ (∀ req : Request,
       let o := run (CourierRoutes.put_update_status req) db in
       let body := req_body req in
       ((∀ f, f ∈ update_required → truthy (read body f) = true) →
          result o = inr (update_failed e)
          ∧ calls o = [(CallUpdateCourierStatus,
                        prop (req_params req) "id"
                        :: (read body <$> update_required))])
       ∧ (nullish body = false →
          (∃ f, f ∈ update_required ∧ truthy (read body f) = false) →
          result o = inr update_rejected ∧ calls o = [])
       ∧ (nullish body = true →
          result o
          = inr (update_failed
                   (cannot_destructure "req.body" "new_status" body))
          ∧ calls o = []))
  ∧ res_code (add_failed e) = 500 ∧ res_code (update_failed e) = 500
  ∧ field (add_failed e) "error" = JStr (message e)
  ∧ field (update_failed e) "error" = JStr (message e).
Proof.
  intros Hdown. split; [|split; [|split; [|done]]].
  - unfold unvalidated_routes.
    repeat apply Forall_cons_2; [..|apply Forall_nil_2]; intros req;
      cbv zeta.
    + rewrite get_status_run. cbv zeta. rejected_by e Hdown.
      split; [done|]. split; [by eexists|done].
    + rewrite get_logs_run. cbv zeta. rejected_by e Hdown.
      split; [done|]. split; [by eexists|done].
    + rewrite delete_courier_run. cbv zeta. rejected_by e Hdown.
      split; [done|]. split; [by eexists|done].
    + rewrite get_nested_run. rejected_by e Hdown.
      split; [done|]. split; [by eexists|done].
    + rewrite get_aggregate_run. rejected_by e Hdown.
      split; [done|]. split; [by eexists|done].
    + rewrite get_customer_activity_run. rejected_by e Hdown.
      split; [done|]. split; [by eexists|done].
  - intros req. cbv zeta. split; [|split].
    + intros Hall. rewrite (post_add_truthy req db Hall). cbv zeta.
      rejected_by e Hdown. done.
    + intros Hbody (f & Hf & Hv).
      by rewrite (post_add_falsy req db f Hbody Hf Hv).
    + intros Hnull. by rewrite (post_add_unreadable req db Hnull).
  - intros req. cbv zeta. split; [|split].
    + intros Hall. rewrite (put_update_status_truthy req db Hall). cbv zeta.
      rejected_by e Hdown. done.
    + intros Hbody (f & Hf & Hv).
      by rewrite (put_update_status_falsy req db f Hbody Hf Hv).
    + intros Hnull. by rewrite (put_update_status_unreadable req db Hnull).
Qed.

Lemma database_down_is_500_verbatim_witness :
  (let o := run (Pool0 := down_pool)
              (CourierRoutes.get_logs (request_for "7")) () in
   result o = inr (logs_failed connection_lost)
   ∧ ∃ args, calls o = [(SelectDeliveryHistory, args)])
  ∧ (let o := run (Pool0 := down_pool)
                (CourierRoutes.post_add add_request_complete) () in
     result o = inr (add_failed connection_lost)
     ∧ calls o = [(CallAddCourierOrder,
                   [JNum 2; JNum 1; JStr "BN-103"; JStr "4 Pickup Rd";
                    JStr "6 Delivery St"])]).
Proof.
  destruct (database_down_is_500_verbatim (Pool0 := down_pool) ()
              connection_lost (λ _ _, eq_refl)) as (Hread & Hadd & _).
  split.
  - unfold unvalidated_routes in Hread.
    destruct (Forall_inv (Forall_inv_tail Hread) (request_for "7"))
      as (Hr & Hc & _).
    exact (conj Hr Hc).
  - refine (proj1 (Hadd add_request_complete) _).
    apply forall_required_add. repeat split.
Defined.

(** X5: the logs route asks for the history first and for the audit rows
    second, on the database as the first query left it.  It answers 200
    exactly when both queries resolve, and then hands on both row sets
    unchanged; a rejected history query ends the request before the audit
    query is sent, and a rejected audit query discards the history rows that
    were already read. *)
Theorem logs_needs_both_queries {DB : Type} `{!Pool DB}
    (req : Request) (db : DB) :
  let o := run (CourierRoutes.get_logs req) db in
  let id := prop (req_params req) "id" in
  let first := pool_exec SelectDeliveryHistory [id] db in
  let second := pool_exec SelectCourierAudit [id] first.2 in
  ∃ r, result o = inr r
    ∧ (res_code r = 200 ↔
       ∃ history audit, first.1 = inr history ∧ second.1 = inr audit
                        ∧ r = logs_found id history audit)
    ∧ ((∃ e, first.1 = inl e) ↔ calls o = [(SelectDeliveryHistory, [id])])
    ∧ (∀ e, first.1 = inl e → r = logs_failed e ∧ final_db o = first.2)
    ∧ (∀ history e, first.1 = inr history → second.1 = inl e →
         r = logs_failed e ∧ final_db o = second.2
         ∧ calls o = [(SelectDeliveryHistory, [id]);
                      (SelectCourierAudit, [id])]).
Proof.
  intros o id first second. subst o first second.
  rewrite get_logs_run. cbv zeta. fold id.
  destruct (pool_exec SelectDeliveryHistory [id] db) as [[e|history] db1];
    simpl.
  - eexists. split; [reflexivity|]. simpl.
    split; [split; [done|by intros (? & ? & [=] & _)]|].
    split; [split; [done|by exists e]|].
    split; [by intros ? [= <-]|by intros ?? [=]].
  - destruct (pool_exec SelectCourierAudit [id] db1) as [[e|audit] db2];
      simpl.
    + eexists. split; [reflexivity|]. simpl.
      split; [split; [done|by intros (? & ? & _ & [=] & _)]|].
      split; [split; [by intros (? & [=])|done]|].
      split; [by intros ? [=]|by intros ?? _ [= <-]].
    + eexists. split; [reflexivity|]. simpl.
      split; [split; [by exists history, audit|done]|].
      split; [split; [by intros (? & [=])|done]|].
      split; [by intros ? [=]|by intros ?? _ [=]].
Qed.

(** X6: the delete route sends the existence check first and the delete
    statement second, with the same id.  The delete statement is sent
    exactly when the check returns a row; the answer is 404 exactly when the
    check resolves without a row; and a 200 reports the first row of the
    check as it was read before the delete. *)
Theorem delete_sent_only_after_row_found {DB : Type} `{!Pool DB}
    (req : Request) (db : DB) :
  let o := run (CourierRoutes.delete_courier req) db in
  let id := prop (req_params req) "id" in
  let check := (pool_exec SelectCourierById [id] db).1 in
  ∃ r, result o = inr r
    ∧ head (calls o) = Some (SelectCourierById, [id])
    ∧ ((∃ row rest, check = inr (row :: rest))
       ↔ calls o = [(SelectCourierById, [id]); (DeleteCourierById, [id])])
    ∧ ((∀ row rest, check ≠ inr (row :: rest))
       ↔ calls o = [(SelectCourierById, [id])])
    ∧ (res_code r = 404 ↔ check = inr [])
    ∧ (res_code r = 200 →
       ∃ row rest, check = inr (row :: rest)
                   ∧ field r "deleted_courier" = row).
Proof.
  intros o id check. subst o check.
  rewrite delete_courier_run. cbv zeta. fold id.
  destruct (pool_exec SelectCourierById [id] db) as [[e|[|row rows]] db1];
    simpl.
  - eexists. split; [reflexivity|]. simpl. split; [done|].
    split; [split; [by intros (? & ? & [=])|done]|].
    split; [done|]. split; [done|]. done.
  - eexists. split; [reflexivity|]. simpl. split; [done|].
    split; [split; [by intros (? & ? & [=])|done]|].
    split; [done|]. split; [done|]. done.
  - assert (Hsent : (∃ row0 rest,
                       (inr (row :: rows) : Answer) = inr (row0 :: rest))
                    ↔ [(SelectCourierById, [id]); (DeleteCourierById, [id])]
                      = [(SelectCourierById, [id]); (DeleteCourierById, [id])]).
    { split; [done|]. intros _. by exists row, rows. }
    assert (Hnone : (∀ row0 rest,
                       (inr (row :: rows) : Answer) ≠ inr (row0 :: rest))
                    ↔ [(SelectCourierById, [id]); (DeleteCourierById, [id])]
                      = [(SelectCourierById, [id])]).
    { split; [|done]. intros Hno. by destruct (Hno row rows). }
    destruct (pool_exec DeleteCourierById [id] db1) as [[e|ok] db2]; simpl.
    + eexists. split; [reflexivity|]. simpl. split; [done|].
      split; [exact Hsent|]. split; [exact Hnone|]. split; done.
    + destruct (member row "bill_number") as [e|bill] eqn:Hbill.
      * eexists. split; [reflexivity|]. simpl. split; [done|].
        split; [exact Hsent|]. split; [exact Hnone|]. split; done.
      * eexists. split; [reflexivity|]. simpl. split; [done|].
        split; [exact Hsent|]. split; [exact Hnone|].
        split; [done|]. intros _. by exists row, rows.
Qed.

Lemma q_courier_by_id_after_delete (E : Engine) (id : JsVal) (t : Tables) :
  q_courier_by_id E id (delete_by_id E id t) = [].
Proof.
  unfold q_courier_by_id, delete_by_id. simpl. apply filter_none.
  by intros c [Hno _]%list_elem_of_filter.
Qed.

(** X7: on the tables, repeating a delete request is harmless: whatever the
    first request did, the same request again is answered 404, sends only
    the existence check and leaves the tables as the first one left them. *)
Theorem delete_again_is_not_found
    (E : Engine) (req : Request) (t : Tables) :
  let id := prop (req_params req) "id" in
  let first := run (Pool0 := mysql_pool E)
                 (CourierRoutes.delete_courier req) t in
  let again := run (Pool0 := mysql_pool E)
                 (CourierRoutes.delete_courier req) (final_db first) in
  result again = inr not_found
  ∧ calls again = [(SelectCourierById, [id])]
  ∧ final_db again = final_db first.
Proof.
  intros id first again. subst first again.
  rewrite !(delete_courier_on_tables E req). cbv zeta. fold id.
  destruct (q_courier_by_id E id t) as [|c cs] eqn:Hfound; simpl.
  - by rewrite Hfound.
  - by rewrite q_courier_by_id_after_delete.
Qed.

(** X8: the three reports take nothing from the request: two requests of
    any content get the same outcome, which is a single statement sent
    without parameters; and in the membership and the aggregate report the
    [count] of a 200 response is the number of rows under [data]. *)
Theorem reports_ignore_the_request {DB : Type} `{!Pool DB}
    (req req' : Request) (db : DB) :
  Forall (λ '(route, q),
            run (route req) db = run (route req') db
            ∧ calls (run (route req) db) = [(q, [])])
         [(ReportRoutes.get_nested, SelectNested);
          (ReportRoutes.get_aggregate, SelectAggregate);
          (ReportRoutes.get_customer_activity, SelectCustomerActivity)]
  ∧ Forall (λ route,
              ∀ r, result (run (route req) db) = inr r → res_code r = 200 →
                ∃ rows, field r "data" = JArr rows
                        ∧ field r "count" = JNum (Z.of_nat (length rows)))
           [ReportRoutes.get_nested; ReportRoutes.get_aggregate].
Proof.
  split.
  - repeat apply Forall_cons_2; [..|apply Forall_nil_2].
    + rewrite !get_nested_run. by destruct (pool_exec _ _ db).
    + rewrite !get_aggregate_run. by destruct (pool_exec _ _ db).
    + rewrite !get_customer_activity_run. by destruct (pool_exec _ _ db).
  - repeat apply Forall_cons_2; [..|apply Forall_nil_2]; intros r.
    + rewrite get_nested_run.
      destruct (pool_exec _ _ db) as [[e|rows] db']; simpl;
        intros [= <-]; [done|]. intros _. by exists rows.
    + rewrite get_aggregate_run.
      destruct (pool_exec _ _ db) as [[e|rows] db']; simpl;
        intros [= <-]; [done|]. intros _. by exists rows.
Qed.

(** *** Bounds of the aggregate report *)

Lemma length_remove_dups_le {A} `{!EqDecision A} (l : list A) :
  (length (remove_dups l) ≤ length l)%nat.
Proof.
  induction l as [|x l IH]; simpl; [done|].
  destruct (decide_rel _ x l); simpl; lia.
Qed.

Lemma length_omap_le {A B} (f : A → option B) (l : list A) :
  (length (omap f l) ≤ length l)%nat.
Proof.
  induction l as [|x l IH]; csimpl; [done|].
  destruct (f x); simpl; lia.
Qed.

Lemma foldr_min_spec (x : Z) (l : list Z) :
  (∀ y, y ∈ x :: l → foldr Z.min x l ≤ y) ∧ foldr Z.min x l ∈ x :: l.
Proof.
  induction l as [|z l [IHle IHin]]; simpl.
  - split; [|constructor]. by intros y ->%list_elem_of_singleton.
  - split.
    + intros y Hy.
      assert (y = z ∨ y ∈ x :: l) as [->|Hy'].
      { rewrite !elem_of_cons in Hy. rewrite elem_of_cons. tauto. }
      * lia.
      * specialize (IHle y Hy'). lia.
    + assert (Hmin : Z.min z (foldr Z.min x l) = z
                     ∨ Z.min z (foldr Z.min x l) = foldr Z.min x l) by lia.
      destruct Hmin as [-> | ->].
      * apply list_elem_of_further. constructor.
      * rewrite !elem_of_cons in IHin. rewrite !elem_of_cons. tauto.
Qed.

Lemma foldr_max_spec (x : Z) (l : list Z) :
  (∀ y, y ∈ x :: l → y ≤ foldr Z.max x l) ∧ foldr Z.max x l ∈ x :: l.
Proof.
  induction l as [|z l [IHle IHin]]; simpl.
  - split; [|constructor]. by intros y ->%list_elem_of_singleton.
  - split.
    + intros y Hy.
      assert (y = z ∨ y ∈ x :: l) as [->|Hy'].
      { rewrite !elem_of_cons in Hy. rewrite elem_of_cons. tauto. }
      * lia.
      * specialize (IHle y Hy'). lia.
    + assert (Hmax : Z.max z (foldr Z.max x l) = z
                     ∨ Z.max z (foldr Z.max x l) = foldr Z.max x l) by lia.
      destruct Hmax as [-> | ->].
      * apply list_elem_of_further. constructor.
      * rewrite !elem_of_cons in IHin. rewrite !elem_of_cons. tauto.
Qed.

(** X9: in every row of the aggregate report the number of distinct
    customers is at most the number of orders, and [earliest_order] and
    [latest_order] are never NULL: they are the creation times of two orders
    of that status and bound the creation time of every order of that
    status.  The report has no more rows than there are orders, and none
    exactly when there is no order. *)
Theorem aggregate_rows_are_bounded (t : Tables) :
  (∀ r, r ∈ q_aggregate t →
     (unique_customers r ≤ agg_count r)%nat
     ∧ ∃ lo hi, earliest_order r = Some lo ∧ latest_order r = Some hi
         ∧ (∀ c, c ∈ orders_with_status t (agg_status r) →
              lo ≤ created_at c ≤ hi)
         ∧ (∃ c, c ∈ orders_with_status t (agg_status r) ∧ created_at c = lo)
         ∧ (∃ c, c ∈ orders_with_status t (agg_status r) ∧ created_at c = hi))
  ∧ (length (q_aggregate t) ≤ length (Couriers t))%nat
  ∧ (q_aggregate t = [] ↔ Couriers t = []).
Proof.
  assert (Hlen : length (q_aggregate t)
                 = length (remove_dups (status <$> Couriers t))).
  { unfold q_aggregate. by rewrite merge_sort_Permutation, length_fmap. }
  split; [|split].
  - intros r. unfold q_aggregate. rewrite merge_sort_Permutation.
    intros (s & -> & Hs)%list_elem_of_fmap. simpl.
    split.
    { etrans; [apply length_remove_dups_le|apply length_omap_le]. }
    apply elem_of_remove_dups, list_elem_of_fmap in Hs as (c0 & -> & Hc0).
    unfold orders_with_status, status_group.
    assert (Hin : c0 ∈ filter (λ c, status c = status c0) (Couriers t))
      by by apply list_elem_of_filter.
    destruct (filter _ (Couriers t)) as [|c g] eqn:Hg;
      [by apply not_elem_of_nil in Hin|].
    csimpl.
    destruct (foldr_min_spec (created_at c) (created_at <$> g))
      as [Hle Hmin].
    destruct (foldr_max_spec (created_at c) (created_at <$> g))
      as [Hge Hmax].
    change (created_at c :: (created_at <$> g))
      with (created_at <$> c :: g) in *.
    eexists _, _. split; [done|]. split; [done|]. split; [|split].
    + intros c' Hc'. split; [apply Hle|apply Hge];
        by apply list_elem_of_fmap_2.
    + apply list_elem_of_fmap in Hmin as (c' & Heq & Hc'). by exists c'.
    + apply list_elem_of_fmap in Hmax as (c' & Heq & Hc'). by exists c'.
  - rewrite Hlen. etrans; [apply length_remove_dups_le|].
    by rewrite length_fmap.
  - split.
    + intros Hnil. rewrite Hnil in Hlen. simpl in Hlen.
      destruct (Couriers t) as [|c cs]; [done|].
      assert (Hc : status c ∈ remove_dups (status <$> c :: cs)).
      { apply elem_of_remove_dups. constructor. }
      destruct (remove_dups (status <$> c :: cs));
        [by apply not_elem_of_nil in Hc|done].
    + intros Hnil. apply length_zero_iff_nil. rewrite Hlen, Hnil. done.
Qed.

(** *** The reports against each other *)

Lemma join_rows_has (cs : list Courier) (u : User) (c : Courier) :
  c ∈ cs → customer_id c = Some (user_id u) → (u, Some c) ∈ join_rows cs u.
Proof.
  intros Hc Hid. unfold join_rows.
  assert (Hin : c ∈ filter (λ c, customer_id c = Some (user_id u)) cs)
    by by apply list_elem_of_filter.
  destruct (filter _ cs) as [|c0 m]; [by apply not_elem_of_nil in Hin|].
  by apply (list_elem_of_fmap_2 (λ c, (u, Some c))).
Qed.

(** A user with an order has a row in the customer-activity report. *)
Lemma activity_row_of_customer (t : Tables) (u : User) (c : Courier) :
  u ∈ Users t → c ∈ Couriers t → customer_id c = Some (user_id u) →
  let r := activity_row (left_join (Users t) (Couriers t)) (user_key u) in
  r ∈ q_customer_activity t ∧ (0 < total_orders r)%nat.
Proof.
  intros Hu Hc Hid r.
  assert (Hj : (u, Some c) ∈ left_join (Users t) (Couriers t)).
  { apply left_join_user. exists u. split; [done|]. by apply join_rows_has. }
  assert (Hpos : (0 < total_orders r)%nat).
  { subst r. unfold activity_row. simpl.
    assert (Hin : courier_id c
                  ∈ omap (λ j : User * option Courier, courier_id <$> j.2)
                      (activity_group (user_key u)
                         (left_join (Users t) (Couriers t)))).
    { apply list_elem_of_omap. exists (u, Some c). split; [|done].
      by apply list_elem_of_filter. }
    destruct (omap _ _); [by apply not_elem_of_nil in Hin|simpl; lia]. }
  split; [|done].
  unfold q_customer_activity. rewrite merge_sort_Permutation.
  apply list_elem_of_filter. split; [done|].
  unfold activity_grouped. apply list_elem_of_fmap_2, elem_of_remove_dups.
  by apply (list_elem_of_fmap_2' activity_key _ (u, Some c)).
Qed.

(** X10: the reports agree with each other.  Every user listed by the
    membership report has a row in the customer-activity report, under the
    same id, name and email and with a positive count; and when the
    membership report lists anyone, the aggregate report has a row for the
    status Delivered. *)
Theorem membership_within_customer_activity (E : Engine) (t : Tables) :
  (∀ u, u ∈ q_nested E t →
     ∃ r, r ∈ q_customer_activity t
          ∧ activity_user_id r = user_id u
          ∧ customer_name r = name u
          ∧ activity_email r = email u
          ∧ (0 < total_orders r)%nat)
  ∧ (q_nested E t ≠ [] →
     ∃ r, r ∈ q_aggregate t ∧ agg_status r = Some "Delivered"
          ∧ (0 < agg_count r)%nat).
Proof.
  assert (Hlisted : ∀ u, u ∈ q_nested E t →
            u ∈ Users t ∧ ∃ c, c ∈ Couriers t
              ∧ customer_id c = Some (user_id u)
              ∧ status c = Some "Delivered").
  { intros u. unfold q_nested. rewrite merge_sort_Permutation.
    intros [Hd Hu]%list_elem_of_filter. split; [done|].
    apply delivered_customer_ids_spec in Hd.
    apply Exists_exists in Hd as (c & Hc & Hid & Hst). by exists c. }
  split.
  - intros u (Hu & c & Hc & Hid & _)%Hlisted.
    destruct (activity_row_of_customer t u c Hu Hc Hid) as [Hr Hpos].
    eexists. split; [exact Hr|]. by repeat split.
  - intros Hne. destruct (q_nested E t) as [|u rows] eqn:Hrows; [done|].
    destruct (Hlisted u) as (_ & c & Hc & _ & Hst); [constructor|].
    exists (status_row (Couriers t) (Some "Delivered")).
    split; [|split; [done|]].
    + unfold q_aggregate. rewrite merge_sort_Permutation.
      apply list_elem_of_fmap_2, elem_of_remove_dups.
      rewrite <- Hst. by apply list_elem_of_fmap_2.
    + simpl. unfold status_group.
      assert (Hin : c ∈ filter (λ c, status c = Some "Delivered") (Couriers t))
        by by apply list_elem_of_filter.
      destruct (filter _ (Couriers t));
        [by apply not_elem_of_nil in Hin|simpl; lia].
Qed.

Lemma membership_within_customer_activity_witness :
  ∃ r, r ∈ q_aggregate example_tables ∧ agg_status r = Some "Delivered"
       ∧ (0 < agg_count r)%nat.
Proof.
  refine (proj2 (membership_within_customer_activity example_engine
                   example_tables) _).
  discriminate.
Defined.

Lemma sum_list_filter_positive {A} (f : A → nat) (l : list A) :
  sum_list (f <$> filter (λ x, (0 < f x)%nat) l) = sum_list (f <$> l).
Proof.
  induction l as [|x l IH]; [done|].
  rewrite filter_cons. destruct (decide (0 < f x)%nat); csimpl; rewrite IH; lia.
Qed.

Lemma customer_known_spec (t : Tables) (c : Courier) :
  customer_known t c ↔ customer_id c ∈ (λ u, Some (user_id u)) <$> Users t.
Proof.
  unfold customer_known. rewrite Exists_exists, list_elem_of_fmap.
  split; intros (u & ? & ?); by exists u.
Qed.

(** X11: with [user_id] the key of [Users], the counts of the
    customer-activity report add up to the number of orders whose
    [customer_id] is the id of a user: every such order is counted once, and
    an order without a customer, or with an unknown one, is counted
    nowhere. *)
Theorem customer_activity_counts_known_orders (t : Tables) :
  NoDup (user_id <$> Users t) →
  sum_list (total_orders <$> q_customer_activity t)
  = length (filter (customer_known t) (Couriers t)).
Proof.
  intros Hkey. unfold q_customer_activity.
  rewrite merge_sort_Permutation. unfold activity_having.
  rewrite sum_list_filter_positive.
  rewrite (activity_grouped_all_users t Hkey), <- list_fmap_compose.
  rewrite <- (group_sizes_sum customer_id
                ((λ u, Some (user_id u)) <$> Users t)
                (filter (customer_known t) (Couriers t))).
  - rewrite <- list_fmap_compose. f_equal. apply list_fmap_ext.
    intros i u Hu%list_elem_of_lookup_2. simpl. unfold orders_of. f_equal.
    rewrite list_filter_filter. apply list_filter_iff.
    intros c. split; [|tauto]. intros Hid. split; [done|].
    apply customer_known_spec. rewrite Hid.
    by apply (list_elem_of_fmap_2 (λ u, Some (user_id u))).
  - rewrite (list_fmap_compose user_id Some).
    by apply (NoDup_fmap_2 Some).
  - intros c [Hknown _]%list_elem_of_filter.
    by apply customer_known_spec.
Qed.

Lemma customer_activity_counts_known_orders_witness :
  sum_list (total_orders <$> q_customer_activity example_tables) = 3%nat.
Proof.
  refine (customer_activity_counts_known_orders example_tables _).
  simpl. repeat constructor; rewrite ?elem_of_cons, ?elem_of_nil; lia.
Defined.

(** * The listing routes *)

(** X12: each of the five listing routes sends exactly one statement and
    always answers: 200 with the rows as they came when the statement
    resolves, 500 with the driver's message under [error] when it is
    rejected.  None of them reads the request.  The lists of users and of
    admins and the admin-performance report carry no [count], and their 500
    carries no [message]. *)
Theorem list_routes_answer_from_one_statement {DB : Type} `{!ListPool DB}
    (req req' : Request) (db : DB) :
  Forall (λ '(route, q, found, failed),
            let o := list_run (route req) db in
            list_calls o = [q]
            ∧ list_final_db o = (list_exec q db).2
            ∧ list_result o
              = inr match (list_exec q db).1 with
                    | inr rows => found rows
                    | inl e => failed e
                    end
            ∧ list_run (route req') db = o
            ∧ (∀ rows, well_formed (found rows)
                       ∧ res_code (found rows) = 200
                       ∧ field (found rows) "data" = JArr rows)
            ∧ (∀ e, well_formed (failed e) ∧ res_code (failed e) = 500
                    ∧ field (failed e) "error" = JStr (message e)))
         list_routes
  ∧ (∀ rows, field (couriers_found rows) "count"
             = JNum (Z.of_nat (length rows))
             ∧ field (join_found rows) "count" = JNum (Z.of_nat (length rows))
             ∧ field (entries_found rows) "count" = JUndefined
             ∧ field (performance_found rows) "count" = JUndefined)
  ∧ (∀ e, field (bare_failure e) "message" = JUndefined).
Proof.
  split; [|by split].
  unfold list_routes. repeat apply Forall_cons_2; [..|apply Forall_nil_2];
    cbv zeta; simpl;
    destruct (list_exec _ db) as [[e|rows] db']; simpl;
    (split; [done|]; split; [done|]; split; [done|]; split; [done|]);
    (split; intros; unfold well_formed, field; simpl; auto 10).
Qed.

(** ** Joins *)

Lemma elem_of_optional {A} (l : list A) (x : option A) :
  x ∈ optional l ↔ (l = [] ∧ x = None) ∨ (∃ y, y ∈ l ∧ x = Some y).
Proof.
  destruct l as [|a l].
  - simpl. rewrite list_elem_of_singleton. split; [by left|].
    intros [[_ ->]|(y & Hy & _)]; [done|by apply not_elem_of_nil in Hy].
  - change (optional (a :: l)) with (Some <$> a :: l).
    rewrite list_elem_of_fmap. split.
    + intros (y & -> & Hy). right. by exists y.
    + intros [[[=] _]|(y & Hy & ->)]. by exists y.
Qed.

Lemma optional_singleton {A} (l : list A) :
  (length l ≤ 1)%nat → ∃ x, optional l = [x].
Proof.
  destruct l as [|a [|b l]]; intros Hlen.
  - by exists None.
  - by exists (Some a).
  - simpl in Hlen. lia.
Qed.

(** A key column admits at most one match. *)
Lemma key_matches_once {A} (key : A → Z) (k : option Z) (l : list A) :
  NoDup (key <$> l) → (length (filter (λ x, k = Some (key x)) l) ≤ 1)%nat.
Proof.
  induction l as [|x l IH]; [simpl; lia|].
  rewrite fmap_cons, NoDup_cons. intros [Hx Hnd].
  rewrite filter_cons. destruct (decide (k = Some (key x))) as [->|]; [|auto].
  rewrite filter_none; [simpl; lia|].
  intros y Hy [= Heq]. apply Hx. rewrite Heq. by apply list_elem_of_fmap_2.
Qed.

Lemma elem_of_views_of (d : Database) (c : Courier) (v : CourierView) :
  v ∈ views_of d c ↔
  view_courier v = c
  ∧ view_customer v ∈ optional (customers_of (Users (tables d)) c)
  ∧ view_admin v ∈ optional (admins_of (Admins d) c).
Proof.
  unfold views_of. rewrite list_elem_of_bind. split.
  - intros (u & (a & ->%list_elem_of_singleton & Ha)%list_elem_of_bind & Hu).
    done.
  - destruct v as [c' u a]. simpl. intros (-> & Hu & Ha).
    exists u. split; [|done]. apply list_elem_of_bind.
    exists a. split; [constructor|done].
Qed.

Lemma elem_of_join_views_of (d : Database) (c : Courier) (v : CourierView) :
  v ∈ join_views_of d c ↔
  view_courier v = c
  ∧ (∃ u, view_customer v = Some u ∧ u ∈ customers_of (Users (tables d)) c)
  ∧ view_admin v ∈ optional (admins_of (Admins d) c).
Proof.
  unfold join_views_of. rewrite list_elem_of_bind. split.
  - intros (u & (a & ->%list_elem_of_singleton & Ha)%list_elem_of_bind & Hu).
    simpl. split; [done|]. split; [by exists u|done].
  - destruct v as [c' ou a]. simpl. intros (-> & (u & -> & Hu) & Ha).
    exists u. split; [|done]. apply list_elem_of_bind.
    exists a. split; [constructor|done].
Qed.

Lemma views_of_nonempty (d : Database) (c : Courier) :
  ∃ v, v ∈ views_of d c.
Proof.
  assert (Hsome : ∀ A (l : list A), ∃ x, x ∈ optional l).
  { intros A [|a l]; eexists; constructor. }
  destruct (Hsome _ (customers_of (Users (tables d)) c)) as [u Hu].
  destruct (Hsome _ (admins_of (Admins d) c)) as [a Ha].
  exists (mkCourierView c u a). by apply elem_of_views_of.
Qed.

Lemma customers_of_known (t : Tables) (c : Courier) :
  customers_of (Users t) c = [] ↔ ¬ customer_known t c.
Proof.
  unfold customers_of, customer_known. rewrite Exists_exists. split.
  - intros Hnil (u & Hu & Hid).
    by apply (filter_nil_not_elem_of _ _ u Hnil).
  - intros Hno. apply filter_none. intros u Hu Hid. apply Hno. by exists u.
Qed.

Lemma admins_of_known (d : Database) (c : Courier) :
  admins_of (Admins d) c = [] ↔ ¬ admin_known d c.
Proof.
  unfold admins_of, admin_known. rewrite Exists_exists. split.
  - intros Hnil (a & Ha & Hid).
    by apply (filter_nil_not_elem_of _ _ a Hnil).
  - intros Hno. apply filter_none. intros a Ha Hid. apply Hno. by exists a.
Qed.

(** With keys on both sides, an order has exactly one joined row. *)
Lemma views_of_singleton (d : Database) (c : Courier) :
  NoDup (user_id <$> Users (tables d)) → NoDup (admin_id <$> Admins d) →
  ∃ v, views_of d c = [v] ∧ view_courier v = c.
Proof.
  intros Hu Ha. unfold views_of.
  destruct (optional_singleton (customers_of (Users (tables d)) c))
    as [u ->]; [by apply key_matches_once|].
  destruct (optional_singleton (admins_of (Admins d) c))
    as [a ->]; [by apply key_matches_once|].
  by eexists.
Qed.

Lemma bind_singletons {A B} (f : A → list B) (g : B → A) (l : list A) :
  (∀ x, x ∈ l → ∃ y, f x = [y] ∧ g y = x) → g <$> (l ≫= f) = l.
Proof.
  induction l as [|x l IH]; intros Hone; [done|].
  destruct (Hone x) as (y & Hy & Hg); [constructor|].
  csimpl. rewrite Hy. csimpl. rewrite Hg, IH; [done|].
  intros x' Hx'. apply Hone. by constructor.
Qed.

Global Instance view_newest_first_total : Total view_newest_first.
Proof. intros v1 v2. unfold view_newest_first. lia. Qed.
Global Instance view_newest_first_trans : Transitive view_newest_first.
Proof. intros v1 v2 v3. unfold view_newest_first. lia. Qed.

(** X13: the list of all orders answers 200 with one statement and leaves
    the database alone.  Its rows are newest first; every order is listed
    and every row is an order; a row has no customer exactly when no user
    has the order's [customer_id], and no admin exactly when no admin has
    its [managed_by_admin_id], and otherwise carries a user, or an admin,
    with that id.  With [user_id] and [admin_id] keys of their tables, each
    order is listed exactly once, so [count] is the number of orders. *)
Theorem couriers_list_keeps_every_order
    (L : ListEngine) (req : Request) (d : Database) :
  let o := list_run (ListPool0 := mysql_list_pool L)
             (ListRoutes.get_couriers req) d in
  let rows := q_couriers d in
  list_result o = inr (couriers_found (js_courier_view <$> rows))
  ∧ list_final_db o = d
  ∧ StronglySorted view_newest_first rows
  ∧ (∀ c, c ∈ Couriers (tables d) ↔ ∃ v, v ∈ rows ∧ view_courier v = c)
  ∧ (∀ v, v ∈ rows →
       (view_customer v = None ↔ ¬ customer_known (tables d) (view_courier v))
       ∧ (∀ u, view_customer v = Some u →
            u ∈ Users (tables d)
            ∧ customer_id (view_courier v) = Some (user_id u))
       ∧ (view_admin v = None ↔ ¬ admin_known d (view_courier v))
       ∧ (∀ a, view_admin v = Some a →
            a ∈ Admins d
            ∧ managed_by_admin_id (view_courier v) = Some (admin_id a)))
  ∧ (NoDup (user_id <$> Users (tables d)) → NoDup (admin_id <$> Admins d) →
     view_courier <$> rows ≡ₚ Couriers (tables d)
     ∧ field (couriers_found (js_courier_view <$> rows)) "count"
       = JNum (Z.of_nat (length (Couriers (tables d))))).
Proof.
  intros o rows. subst o rows.
  assert (Hperm : q_couriers d ≡ₚ Couriers (tables d) ≫= views_of d).
  { unfold q_couriers. by rewrite merge_sort_Permutation. }
  assert (Hrow : ∀ v, v ∈ q_couriers d ↔
            ∃ c, c ∈ Couriers (tables d) ∧ v ∈ views_of d c).
  { intros v. rewrite Hperm, list_elem_of_bind.
    split; intros (c & ? & ?); by exists c. }
  split; [done|]. split; [done|].
  split; [apply (StronglySorted_merge_sort _)|].
  split; [|split].
  - intros c. split.
    + intros Hc. destruct (views_of_nonempty d c) as [v Hv].
      exists v. split; [apply Hrow; by exists c|].
      by apply elem_of_views_of in Hv as [? _].
    + intros (v & (c' & Hc' & Hv)%Hrow & <-).
      by apply elem_of_views_of in Hv as [-> _].
  - intros v (c & Hc & (-> & Hu & Ha)%elem_of_views_of)%Hrow.
    apply elem_of_optional in Hu, Ha.
    split; [|split; [|split]].
    + rewrite <- customers_of_known. split.
      * intros Hnone. destruct Hu as [[? _]|(u & _ & Hsome)]; [done|].
        congruence.
      * intros Hnil. destruct Hu as [[_ ?]|(u & Hin & _)]; [done|].
        rewrite Hnil in Hin. by apply not_elem_of_nil in Hin.
    + intros u Hsome. destruct Hu as [[_ ?]|(u' & Hin & Hsome')]; [congruence|].
      assert (u' = u) as -> by congruence.
      by apply list_elem_of_filter in Hin as [??].
    + rewrite <- admins_of_known. split.
      * intros Hnone. destruct Ha as [[? _]|(a & _ & Hsome)]; [done|].
        congruence.
      * intros Hnil. destruct Ha as [[_ ?]|(a & Hin & _)]; [done|].
        rewrite Hnil in Hin. by apply not_elem_of_nil in Hin.
    + intros a Hsome. destruct Ha as [[_ ?]|(a' & Hin & Hsome')]; [congruence|].
      assert (a' = a) as -> by congruence.
      by apply list_elem_of_filter in Hin as [??].
  - intros Hu Ha.
    assert (Hone : view_courier <$> q_couriers d ≡ₚ Couriers (tables d)).
    { rewrite Hperm. rewrite (bind_singletons (views_of d) view_courier);
        [done|]. intros c _. by apply views_of_singleton. }
    split; [done|]. unfold couriers_found, field. simpl.
    by rewrite length_fmap, <- Hone, length_fmap.
Qed.

Lemma couriers_list_keeps_every_order_witness :
  view_courier <$> q_couriers orphan_database
  ≡ₚ Couriers (tables orphan_database)
  ∧ field (couriers_found (js_courier_view <$> q_couriers orphan_database))
          "count" = JNum 4.
Proof.
  refine (proj2 (proj2 (proj2 (proj2 (proj2
            (couriers_list_keeps_every_order example_list_engine
               (mkRequest [] JUndefined) orphan_database))))) _ _);
    simpl; repeat constructor; rewrite ?elem_of_cons, ?elem_of_nil; lia.
Defined.

Lemma bind_singletons_or_none {A B} (f : A → list B) (g : B → A)
    (P : A → Prop) `{!∀ x, Decision (P x)} (l : list A) :
  (∀ x, x ∈ l → P x → ∃ y, f x = [y] ∧ g y = x) →
  (∀ x, x ∈ l → ¬ P x → f x = []) →
  g <$> (l ≫= f) = filter P l.
Proof.
  induction l as [|x l IH]; intros Hone Hnone; [done|].
  csimpl. rewrite filter_cons, fmap_app, IH.
  - destruct (decide (P x)) as [HP|HP].
    + destruct (Hone x) as (y & -> & Hg); [constructor|done|].
      csimpl. by rewrite Hg.
    + rewrite (Hnone x); [done|constructor|done].
  - intros x' Hx'. apply Hone. by constructor.
  - intros x' Hx'. apply Hnone. by constructor.
Qed.

Lemma join_views_of_known (d : Database) (c : Courier) :
  NoDup (user_id <$> Users (tables d)) → NoDup (admin_id <$> Admins d) →
  customer_known (tables d) c →
  ∃ v, join_views_of d c = [v] ∧ view_courier v = c.
Proof.
  intros Hu Ha Hknown. unfold join_views_of.
  pose proof (key_matches_once user_id (customer_id c) (Users (tables d)) Hu)
    as Hlen.
  fold (customers_of (Users (tables d)) c) in Hlen.
  destruct (customers_of (Users (tables d)) c) as [|u [|u' us]] eqn:Hcs.
  - by apply customers_of_known in Hcs.
  - destruct (optional_singleton (admins_of (Admins d) c))
      as [a ->]; [by apply key_matches_once|].
    by eexists.
  - simpl in Hlen. lia.
Qed.

Lemma join_views_of_unknown (d : Database) (c : Courier) :
  ¬ customer_known (tables d) c → join_views_of d c = [].
Proof.
  intros Hno%customers_of_known. unfold join_views_of. by rewrite Hno.
Qed.

(** X14: the join report answers 200 with one statement and leaves the
    database alone.  Its rows are newest first, every row carries a user
    whose id is the order's [customer_id], and every row is also a row of
    the list of all orders; an order is in the report exactly when its
    customer is a user, so an order with no customer or an unknown one is
    left out.  With [user_id] and [admin_id] keys of their tables, the
    report has exactly one row for each order with a known customer. *)
Theorem join_report_needs_a_customer
    (L : ListEngine) (req : Request) (d : Database) :
  let o := list_run (ListPool0 := mysql_list_pool L)
             (ListRoutes.get_join req) d in
  let rows := q_join d in
  list_result o = inr (join_found (js_join_view <$> rows))
  ∧ list_final_db o = d
  ∧ StronglySorted view_newest_first rows
  ∧ (∀ v, v ∈ rows →
       v ∈ q_couriers d
       ∧ ∃ u, view_customer v = Some u ∧ u ∈ Users (tables d)
              ∧ customer_id (view_courier v) = Some (user_id u))
  ∧ (∀ c, c ∈ Couriers (tables d) →
       (∃ v, v ∈ rows ∧ view_courier v = c) ↔ customer_known (tables d) c)
  ∧ (NoDup (user_id <$> Users (tables d)) → NoDup (admin_id <$> Admins d) →
     view_courier <$> rows
     ≡ₚ filter (customer_known (tables d)) (Couriers (tables d))).
Proof.
  intros o rows. subst o rows.
  assert (Hperm : q_join d ≡ₚ Couriers (tables d) ≫= join_views_of d).
  { unfold q_join. by rewrite merge_sort_Permutation. }
  assert (Hrow : ∀ v, v ∈ q_join d ↔
            ∃ c, c ∈ Couriers (tables d) ∧ v ∈ join_views_of d c).
  { intros v. rewrite Hperm, list_elem_of_bind.
    split; intros (c & ? & ?); by exists c. }
  split; [done|]. split; [done|].
  split; [apply (StronglySorted_merge_sort _)|].
  split; [|split].
  - intros v (c & Hc & (Hvc & (u & Hsome & Hu) & Ha)%elem_of_join_views_of)%Hrow.
    split.
    + unfold q_couriers. rewrite merge_sort_Permutation.
      apply list_elem_of_bind. exists c. split; [|done].
      apply elem_of_views_of. split; [done|]. split; [|done].
      rewrite Hsome. apply elem_of_optional. right. by exists u.
    + exists u. split; [done|]. rewrite Hvc.
      by apply list_elem_of_filter in Hu as [??].
  - intros c Hc. split.
    + intros (v & (c' & _ & Hv)%Hrow & <-).
      apply elem_of_join_views_of in Hv as (-> & (u & _ & Hu) & _).
      apply list_elem_of_filter in Hu as [Hid Hu].
      unfold customer_known. apply Exists_exists. by exists u.
    + intros Hknown.
      assert (∃ u, u ∈ customers_of (Users (tables d)) c) as [u Hu].
      { destruct (customers_of (Users (tables d)) c) as [|u us] eqn:Hcs.
        - by apply customers_of_known in Hcs.
        - exists u. constructor. }
      assert (∃ a, a ∈ optional (admins_of (Admins d) c)) as [a Ha].
      { destruct (admins_of (Admins d) c); eexists; constructor. }
      exists (mkCourierView c (Some u) a). split; [|done].
      apply Hrow. exists c. split; [done|].
      apply elem_of_join_views_of. split; [done|]. split; [by exists u|done].
  - intros Hu Ha. rewrite Hperm.
    rewrite (bind_singletons_or_none (join_views_of d) view_courier
               (customer_known (tables d))); [done|..].
    + intros c _. by apply join_views_of_known.
    + intros c _. by apply join_views_of_unknown.
Qed.

Lemma join_report_needs_a_customer_witness :
  courier_id <$> (view_courier <$> q_join orphan_database) ≡ₚ [7; 8; 9].
Proof.
  rewrite (proj2 (proj2 (proj2 (proj2 (proj2
            (join_report_needs_a_customer example_list_engine
               (mkRequest [] JUndefined) orphan_database))))));
    [|simpl; repeat constructor; rewrite ?elem_of_cons, ?elem_of_nil; lia..].
  reflexivity.
Defined.

Global Instance by_admin_name_total (E : Engine) : Total (by_admin_name E).
Proof. intros a1 a2. unfold by_admin_name. apply collate_total. Qed.
Global Instance by_admin_name_trans (E : Engine) : Transitive (by_admin_name E).
Proof. intros a1 a2 a3. unfold by_admin_name. apply collate_trans. Qed.
Global Instance by_managed_desc_total : Total by_managed_desc.
Proof. intros r1 r2. unfold by_managed_desc. lia. Qed.
Global Instance by_managed_desc_trans : Transitive by_managed_desc.
Proof. intros r1 r2 r3. unfold by_managed_desc. lia. Qed.

Lemma eqb_decide {A} (a k : string) (x y : A) :
  (if String.eqb a k then x else y) = (if decide (k = a) then x else y).
Proof.
  destruct (String.eqb_spec a k) as [->|Hne]; case_decide; congruence.
Qed.

Lemma prop_cons (k' k : string) (v : JsVal) (o : Props) :
  prop ((k', v) :: o) k = if String.eqb k' k then v else prop o k.
Proof. reflexivity. Qed.

(** X15: the two lists for the dropdowns answer 200 with every row of
    [Users], respectively [Admins], each once, in ascending order of name in
    the column's collation.  An entry has the id, the name and the email and
    nothing else: a user's phone is not given out. *)
Theorem directory_lists_are_the_tables_by_name
    (L : ListEngine) (req : Request) (d : Database) :
  let users := q_users (engine L) d in
  let admins := q_admins (engine L) d in
  list_result (list_run (ListPool0 := mysql_list_pool L)
                 (ListRoutes.get_data_users req) d)
  = inr (entries_found (js_user_entry <$> users))
  ∧ list_result (list_run (ListPool0 := mysql_list_pool L)
                   (ListRoutes.get_data_admins req) d)
    = inr (entries_found (js_admin_entry <$> admins))
  ∧ users ≡ₚ Users (tables d)
  ∧ StronglySorted (by_name (engine L)) users
  ∧ admins ≡ₚ Admins d
  ∧ StronglySorted (by_admin_name (engine L)) admins
  ∧ (∀ u k, member (js_user_entry u) k =
       inr (if decide (k = "user_id") then JNum (user_id u)
            else if decide (k = "name") then JStr (name u)
            else if decide (k = "email") then JStr (email u)
            else JUndefined))
  ∧ (∀ a k, member (js_admin_entry a) k =
       inr (if decide (k = "admin_id") then JNum (admin_id a)
            else if decide (k = "name") then JStr (admin_name a)
            else if decide (k = "email") then JStr (admin_mail a)
            else JUndefined)).
Proof.
  intros users admins. subst users admins.
  split; [done|]. split; [done|].
  split; [apply merge_sort_Permutation|].
  split; [apply (StronglySorted_merge_sort _)|].
  split; [apply merge_sort_Permutation|].
  split; [apply (StronglySorted_merge_sort _)|].
  split; intros x k; unfold member, js_user_entry, js_admin_entry;
    by rewrite !prop_cons, !eqb_decide.
Qed.

(** ** The admin-performance report *)

Lemma admin_rows_admin (cs : list Courier) (a : Admin)
    (j : Admin * option Courier) :
  j ∈ admin_rows cs a → j.1 = a.
Proof. unfold admin_rows. by intros (c & -> & _)%list_elem_of_fmap. Qed.

Lemma admin_rows_nonempty (cs : list Courier) (a : Admin) :
  ∃ j, j ∈ admin_rows cs a.
Proof.
  unfold admin_rows. destruct (managed_by cs a); eexists; constructor.
Qed.

Lemma admin_join_row (ads : list Admin) (cs : list Courier)
    (j : Admin * option Courier) :
  j ∈ admin_join ads cs ↔ ∃ a, a ∈ ads ∧ j ∈ admin_rows cs a.
Proof.
  unfold admin_join. rewrite list_elem_of_bind.
  split; intros (a & ? & ?); by exists a.
Qed.

Lemma admin_group_of_admin (ads : list Admin) (cs : list Courier) (a : Admin) :
  NoDup (admin_id <$> ads) → a ∈ ads →
  admin_group (admin_key a) (admin_join ads cs) = admin_rows cs a.
Proof.
  unfold admin_group.
  induction ads as [|a' ads IH]; intros Hnd Ha;
    [by apply not_elem_of_nil in Ha|].
  rewrite fmap_cons in Hnd. apply NoDup_cons in Hnd as [Hfresh Hnd].
  change (admin_join (a' :: ads) cs)
    with (admin_rows cs a' ++ admin_join ads cs).
  rewrite filter_app.
  destruct (decide (admin_id a' = admin_id a)) as [Hid|Hid].
  - assert (a = a') as <-.
    { apply elem_of_cons in Ha as [?|Ha]; [done|].
      destruct Hfresh. rewrite Hid. by apply list_elem_of_fmap_2. }
    rewrite (filter_none _ (admin_join ads cs)).
    + rewrite app_nil_r. apply filter_all.
      intros j Hj. by rewrite (admin_rows_admin cs a j Hj).
    + intros j (a2 & Ha2 & Hj)%admin_join_row Hkey.
      rewrite (admin_rows_admin cs a2 j Hj) in Hkey.
      destruct Hfresh. injection Hkey as <- _ _.
      by apply list_elem_of_fmap_2.
  - apply elem_of_cons in Ha as [->|Ha]; [done|].
    rewrite (filter_none _ (admin_rows cs a')).
    + by apply IH.
    + intros j Hj Hkey. rewrite (admin_rows_admin cs a' j Hj) in Hkey.
      by injection Hkey.
Qed.

Lemma admin_join_keys (ads : list Admin) (cs : list Courier) :
  NoDup (admin_id <$> ads) →
  remove_dups ((λ j, admin_key j.1) <$> admin_join ads cs)
  ≡ₚ admin_key <$> ads.
Proof.
  intros Hnd. apply NoDup_Permutation.
  - apply NoDup_remove_dups.
  - apply (NoDup_fmap_1 fst), (NoDup_fmap_1 fst).
    rewrite <- !list_fmap_compose. exact Hnd.
  - intros k. rewrite elem_of_remove_dups, !list_elem_of_fmap. split.
    + intros (j & -> & (a & Ha & Hj)%admin_join_row).
      exists a. split; [|done]. by rewrite (admin_rows_admin cs a j Hj).
    + intros (a & -> & Ha). destruct (admin_rows_nonempty cs a) as [j Hj].
      exists j. split.
      * by rewrite (admin_rows_admin cs a j Hj).
      * apply admin_join_row. by exists a.
Qed.

(** Over the rows of one admin, the count and the sums see the orders. *)
Lemma admin_rows_count (cs : list Courier) (a : Admin) :
  length (omap (λ j : Admin * option Courier, courier_id <$> j.2)
            (admin_rows cs a))
  = length (managed_by cs a).
Proof.
  unfold admin_rows. destruct (managed_by cs a) as [|c m]; [done|].
  change (optional (c :: m)) with (Some <$> c :: m).
  generalize (c :: m). intros l. induction l as [|c' l IH]; [done|].
  csimpl. by rewrite IH.
Qed.

Lemma admin_rows_sum (s : string) (cs : list Courier) (a : Admin) :
  sum_list ((λ j : Admin * option Courier, status_is s j.2)
              <$> admin_rows cs a)
  = length (filter (λ c, status c = Some s) (managed_by cs a)).
Proof.
  unfold admin_rows. destruct (managed_by cs a) as [|c m]; [done|].
  change (optional (c :: m)) with (Some <$> c :: m).
  generalize (c :: m). intros l. induction l as [|c' l IH]; [done|].
  csimpl. rewrite IH, filter_cons. unfold status_is at 1.
  change (Some c' ≫= status) with (status c').
  destruct (status c') as [s'|]; repeat case_decide; simplify_eq; done.
Qed.

Lemma performance_row_of_admin (d : Database) (a : Admin) :
  NoDup (admin_id <$> Admins d) → a ∈ Admins d →
  performance_row (admin_join (Admins d) (Couriers (tables d))) (admin_key a)
  = performance_of d a.
Proof.
  intros Hnd Ha. unfold performance_row, performance_of.
  rewrite (admin_group_of_admin _ _ a Hnd Ha). simpl.
  by rewrite admin_rows_count, !admin_rows_sum.
Qed.

Lemma status_is_once (c : option Courier) :
  (status_is "Delivered" c + status_is "In Transit" c + status_is "Pending" c
   ≤ length (option_list c))%nat.
Proof.
  unfold status_is. destruct c as [c|]; simpl; [|lia].
  destruct (status c) as [s|]; [|lia].
  repeat case_decide; subst; try discriminate; lia.
Qed.

#[local] Arguments status_is : simpl never.

(** The three counted statuses never exceed the total. *)
Lemma status_sums_within_count (g : list (Admin * option Courier)) :
  (sum_list ((λ j, status_is "Delivered" j.2) <$> g)
   + sum_list ((λ j, status_is "In Transit" j.2) <$> g)
   + sum_list ((λ j, status_is "Pending" j.2) <$> g)
   ≤ length (omap (λ j : Admin * option Courier, courier_id <$> j.2) g))%nat.
Proof.
  induction g as [|[a c] g IH]; csimpl; [lia|].
  pose proof (status_is_once c) as Honce.
  destruct c as [c|]; simpl in *; lia.
Qed.

Lemma admin_known_spec (d : Database) (c : Courier) :
  admin_known d c ↔ managed_by_admin_id c ∈ (λ a, Some (admin_id a)) <$> Admins d.
Proof.
  unfold admin_known. rewrite Exists_exists, list_elem_of_fmap.
  split; intros (a & ? & ?); by exists a.
Qed.

(** X16: the admin-performance report answers 200 with one statement and
    leaves the database alone; its rows are in descending order of the
    total, and in every row the delivered, in-transit and pending counts
    together are at most the total.  With [admin_id] the key of [Admins]
    there is exactly one row for every admin, an admin without orders
    included with four zeros; the total of a row is the number of orders the
    admin manages and each status count the number of those with that
    status; and the totals add up to the number of orders managed by a
    known admin. *)
Theorem admin_performance_keeps_every_admin
    (L : ListEngine) (req : Request) (d : Database) :
  let o := list_run (ListPool0 := mysql_list_pool L)
             (ListRoutes.get_admin_performance req) d in
  let rows := q_admin_performance d in
  list_result o = inr (performance_found (js_performance_row L <$> rows))
  ∧ list_final_db o = d
  ∧ StronglySorted by_managed_desc rows
  ∧ (∀ r, r ∈ rows →
       (delivered_count r + in_transit_count r + pending_count r
        ≤ total_couriers_managed r)%nat)
  ∧ (NoDup (admin_id <$> Admins d) →
     rows ≡ₚ performance_of d <$> Admins d
     ∧ length rows = length (Admins d)
     ∧ (∀ a, a ∈ Admins d → managed_by (Couriers (tables d)) a = [] →
          mkPerformanceRow (admin_id a) (admin_name a) (admin_mail a)
                           0 0 0 0 ∈ rows)
     ∧ sum_list (total_couriers_managed <$> rows)
       = length (filter (admin_known d) (Couriers (tables d)))).
Proof.
  intros o rows. subst o rows.
  split; [done|]. split; [done|].
  split; [apply (StronglySorted_merge_sort _)|]. split.
  - intros r. unfold q_admin_performance. cbv zeta.
    rewrite merge_sort_Permutation.
    intros (k & -> & _)%list_elem_of_fmap. simpl.
    apply status_sums_within_count.
  - intros Hkey.
    assert (Hrows : q_admin_performance d ≡ₚ performance_of d <$> Admins d).
    { unfold q_admin_performance. cbv zeta.
      rewrite merge_sort_Permutation, (admin_join_keys _ _ Hkey).
      rewrite <- list_fmap_compose.
      erewrite list_fmap_ext; [reflexivity|].
      intros i a Ha%list_elem_of_lookup_2. simpl.
      by apply performance_row_of_admin. }
    split; [done|]. split; [by rewrite Hrows, length_fmap|]. split.
    + intros a Ha Hnone. rewrite Hrows.
      apply (list_elem_of_fmap_2' _ _ a); [done|].
      unfold performance_of. cbv zeta. by rewrite Hnone.
    + rewrite Hrows, <- list_fmap_compose.
      rewrite <- (group_sizes_sum managed_by_admin_id
                    ((λ a, Some (admin_id a)) <$> Admins d)
                    (filter (admin_known d) (Couriers (tables d)))).
      * rewrite <- list_fmap_compose. f_equal. apply list_fmap_ext.
        intros i a Ha%list_elem_of_lookup_2. simpl. unfold managed_by.
        f_equal. rewrite list_filter_filter. apply list_filter_iff.
        intros c. split; [|tauto]. intros Hid. split; [done|].
        apply admin_known_spec. rewrite Hid.
        by apply (list_elem_of_fmap_2 (λ a, Some (admin_id a))).
      * rewrite (list_fmap_compose admin_id Some).
        by apply (NoDup_fmap_2 Some).
      * intros c [Hknown _]%list_elem_of_filter.
        by apply admin_known_spec.
Qed.

Lemma admin_performance_keeps_every_admin_witness :
  mkPerformanceRow 2 "Eli" "eli@example.com" 0 0 0 0
  ∈ q_admin_performance example_database
  ∧ length (q_admin_performance example_database) = 2%nat.
Proof.
  destruct (admin_performance_keeps_every_admin example_list_engine
              (mkRequest [] JUndefined) example_database)
    as (_ & _ & _ & _ & Hkey).
  destruct Hkey as (_ & Hlen & Hzero & _).
  { simpl. repeat constructor; rewrite ?elem_of_cons, ?elem_of_nil; lia. }
  split; [|exact Hlen].
  apply (Hzero eli); [constructor|reflexivity].
Defined.

(** ** The listings on the example database *)

Example couriers_example :
  (λ v, (courier_id (view_courier v), name <$> view_customer v,
         admin_name <$> view_admin v)) <$> q_couriers orphan_database
  = [(10, None, Some "Dana"); (9, Some "Bob", None);
     (8, Some "Alice", Some "Dana"); (7, Some "Bob", Some "Dana")].
Proof. reflexivity. Qed.

Example join_example :
  (λ v, courier_id (view_courier v)) <$> q_join orphan_database = [9; 8; 7].
Proof. reflexivity. Qed.

Example admin_performance_example :
  q_admin_performance example_database
  = [mkPerformanceRow 1 "Dana" "dana@example.com" 2 1 0 1;
     mkPerformanceRow 2 "Eli" "eli@example.com" 0 0 0 0].
Proof. reflexivity. Qed.
